(** * Municipal Rates Clearance: the application store

    A shallow embedding of [server/storage.ts] (class [MySQLStorage]) and the
    properties of its record lifecycle.

    Conventions of the embedding.
    - A [Date] is its time value (milliseconds since the epoch), an integer.
      The DATETIME columns are declared without fractional seconds: a row
      holds whole seconds, MySQL rounds a [Date] to the nearest second when it
      is stored, and a select hands back the rounded [Date].
    - A string is the sequence of bytes (UTF-8) sent to the server.  The
      server runs in strict mode, its default: a value that does not fit a
      TEXT or VARCHAR(n) column fails the INSERT.
    - A JSON column holds the value whose JSON text was written to it:
      [JSON.parse (JSON.stringify l)] is [l] for an array of strings [l].
    - SQL text comparison is equality of strings.
    - [randomUUID()], [Math.random()] and [new Date()] are inputs of the
      methods that call them.
    - A table is the list of its rows in insertion order; a table that was
      never created is the empty list. *)

From Stdlib Require Import ZArith List String Ascii Bool Lia.
From Stdlib Require Import Sorting.Permutation Sorting.Sorted.
Import ListNotations.
Local Open Scope string_scope.
Local Open Scope Z_scope.

(** ** JavaScript values *)

Definition Date := Z.

(** The value of a DATETIME column: a whole number of seconds. *)
Inductive Datetime := AtSecond (s : Z).

(** A [Date] bound to a DATETIME column: rounded to the nearest second. *)
Definition to_datetime (t : Date) : Datetime := AtSecond ((t + 500) / 1000).

Definition seconds (d : Datetime) : Z :=
  match d with AtSecond s => s end.

(** The [Date] the driver builds from a selected DATETIME. *)
Definition from_datetime (d : Datetime) : Date := seconds d * 1000.

(** A [Date] after a round trip through a DATETIME column. *)
Definition DATETIME (t : Date) : Date := from_datetime (to_datetime t).

(** Truthiness of the values that appear on the left of [||] in the source. *)
Class Truthy (A : Type) := truthy : A -> bool.

#[export] Instance Truthy_string : Truthy string :=
  fun s => match s with EmptyString => false | String _ _ => true end.
#[export] Instance Truthy_Date : Truthy Date := fun _ => true.
#[export] Instance Truthy_array {A} : Truthy (list A) := fun _ => true.

(** [a || b] where [a] may be [null]/[undefined] ([None]) and [b] is a value. *)
Definition or_else {A} `{Truthy A} (a : option A) (b : A) : A :=
  match a with
  | Some v => if truthy v then v else b
  | None => b
  end.

(** [a || b] where [a] is never [null]/[undefined]. *)
Definition or_val {A} `{Truthy A} (a b : A) : A :=
  if truthy a then a else b.

(** [a || b] where both sides may be [null]/[undefined]. *)
Definition js_or {A} `{Truthy A} (a b : option A) : option A :=
  match a with
  | Some v => if truthy v then Some v else b
  | None => b
  end.

(** ** binary64 arithmetic, as far as [createApplication] uses it

    A finite non-negative double is an integer multiple of [2^-1074]; it is
    represented by that integer.  Every value met here is far below the
    overflow threshold. *)
Module Binary64.

Definition unit_exp : Z := 1074.
Definition one : Z := 2 ^ unit_exp.

(** Round to 53 significant bits, ties to even. *)
Definition round53 (a : Z) : Z :=
  let s := Z.log2 a - 52 in
  if s <=? 0 then a
  else
    let q := a / 2 ^ s in
    let r := a mod 2 ^ s in
    let h := 2 ^ (s - 1) in
    let q' := if (h <? r) || ((r =? h) && Z.odd q) then q + 1 else q in
    q' * 2 ^ s.

Definition representable (a : Z) : bool := (0 <=? a) && (round53 a =? a).

Definition of_int (n : Z) : Z := n * one.
(** [x * n] for an integer-valued double [n]: the exact product, rounded. *)
Definition mul_int (x n : Z) : Z := round53 (x * n).
Definition add (x y : Z) : Z := round53 (x + y).
(** [Math.floor], as an integer. *)
Definition floor (x : Z) : Z := x / one.

(** What [Math.random()] may return: a double in [0, 1). *)
Definition is_random (x : Z) : bool := representable x && (x <? one).

(** The largest double below 1, [1 - 2^-53]. *)
Definition max_random : Z := (2 ^ 53 - 1) * 2 ^ 1021.

End Binary64.

(** ** Number to string, for non-negative integers below [10^21] *)

Definition digit_char (d : Z) : ascii := ascii_of_nat (48 + Z.to_nat d).

Fixpoint decimal_digits (fuel : nat) (n : Z) (acc : string) : string :=
  match fuel with
  | O => acc
  | S fuel' =>
      let acc' := String (digit_char (n mod 10)) acc in
      if n / 10 =? 0 then acc' else decimal_digits fuel' (n / 10) acc'
  end.

Definition Number_toString (n : Z) : string := decimal_digits 21 n "".

(** [Math.floor(Math.random() * 900000 + 100000)] for [Math.random() = rnd]. *)
Definition referenceSuffix (rnd : Z) : Z :=
  Binary64.floor
    (Binary64.add (Binary64.mul_int rnd 900000) (Binary64.of_int 100000)).

(** [`RCC-2025-${Math.floor(Math.random() * 900000 + 100000)}`] *)
Definition makeReferenceNumber (rnd : Z) : string :=
  ("RCC-2025-" ++ Number_toString (referenceSuffix rnd))%string.

(** The pattern [RCC-2025-\d{6}], matched against the whole string. *)
Definition is_digit (c : ascii) : bool :=
  let n := nat_of_ascii c in (48 <=? n)%nat && (n <=? 57)%nat.

Fixpoint all_digits (s : string) : bool :=
  match s with
  | EmptyString => true
  | String c s' => is_digit c && all_digits s'
  end.

Fixpoint strip_prefix (p s : string) : option string :=
  match p, s with
  | EmptyString, _ => Some s
  | String a p', String b s' => if Ascii.eqb a b then strip_prefix p' s' else None
  | String _ _, EmptyString => None
  end.

Definition matches_reference_pattern (s : string) : bool :=
  match strip_prefix "RCC-2025-" s with
  | Some rest => (String.length rest =? 6)%nat && all_digits rest
  | None => false
  end.

(** ** Records *)

Inductive Status := submitted | under_review | approved | rejected.

Definition Status_eqb (a b : Status) : bool :=
  match a, b with
  | submitted, submitted | under_review, under_review
  | approved, approved | rejected, rejected => true
  | _, _ => false
  end.

(** A row of the [applications] table (columns of [createTables]). *)
Module ApplicationRow.
Record t := mk {
  id : string;
  reference_number : string;
  full_name : string;
  id_number : string;
  phone_number : string;
  email : option string;
  property_address : string;
  stand_number : string;
  property_type : string;
  reason : string;
  documents : option (list string);
  uploaded_documents : option (list string);
  status : Status;
  submitted_date : Datetime;
  review_date : option Datetime;
  completed_date : option Datetime;
  admin_notes : option string;
  reviewed_by : option string
}.
End ApplicationRow.

(** The [Application] object, with the fields [mapRowToApplication] builds. *)
Module Application.
Record t := mk {
  id : string;
  referenceNumber : string;
  fullName : string;
  idNumber : string;
  phoneNumber : string;
  email : option string;
  propertyAddress : string;
  standNumber : string;
  propertyType : string;
  reason : string;
  documents : list string;
  uploadedDocuments : list string;
  status : Status;
  submittedDate : Date;
  reviewDate : option Date;
  completedDate : option Date;
  adminNotes : option string;
  reviewedBy : option string
}.
End Application.

(** Modelled from the spec: the [InsertApplication] type of [@shared/schema]
    is not among the sources.  It carries the applicant fields (all required
    except [email]) and the two optional document lists; the generated and
    lifecycle fields ([id], [referenceNumber], [status], the dates,
    [adminNotes], [reviewedBy]) are not part of it. *)
Module InsertApplication.
Record t := mk {
  fullName : string;
  idNumber : string;
  phoneNumber : string;
  email : option string;
  propertyAddress : string;
  standNumber : string;
  propertyType : string;
  reason : string;
  documents : option (list string);
  uploadedDocuments : option (list string)
}.
End InsertApplication.

(** A row of the [admins] table. *)
Module AdminRow.
Record t := mk {
  id : string;
  username : string;
  password : string;
  full_name : string;
  created_at : Datetime
}.
End AdminRow.

Module Admin.
Record t := mk {
  id : string;
  username : string;
  password : string;
  fullName : string;
  createdAt : Date
}.
End Admin.

(** Modelled from the spec: the [InsertAdmin] type of [@shared/schema] is not
    among the sources; it is an [Admin] without [id] and [createdAt]. *)
Module InsertAdmin.
Record t := mk {
  username : string;
  password : string;
  fullName : string
}.
End InsertAdmin.

(** ** The database behind the connection *)

Record Database := mkDatabase {
  applications : list ApplicationRow.t;
  admins : list AdminRow.t
}.

Definition emptyDatabase : Database := mkDatabase [] [].

Inductive Error :=
| ConnectionNotEstablished   (* 'Database connection not established' *)
| ConnectionFailed           (* mysql.createConnection rejected *)
| DuplicateEntry (key : string)   (* PRIMARY KEY or UNIQUE violated *)
| DataTooLong (column : string).  (* value longer than the column holds *)

Inductive Result (A : Type) :=
| Ok (a : A)
| Err (e : Error).
Arguments Ok {A} a.
Arguments Err {A} e.

(** SQL statements of the class, on the tables. *)
Module SQL.

(** [CREATE TABLE IF NOT EXISTS ...]: an absent table is already the empty
    list and the rows of an existing table are left as they are. *)
Definition create_table_if_not_exists (db : Database) : Result Database := Ok db.

(** [SELECT * FROM applications WHERE id = ?] *)
Definition select_applications_by_id (id : string) (db : Database)
  : list ApplicationRow.t :=
  filter (fun r => String.eqb (ApplicationRow.id r) id) (applications db).

(** [SELECT * FROM applications WHERE reference_number = ?] *)
Definition select_applications_by_reference (ref : string) (db : Database)
  : list ApplicationRow.t :=
  filter (fun r => String.eqb (ApplicationRow.reference_number r) ref)
         (applications db).

(** A TEXT column holds at most 65535 bytes. *)
Definition fits_TEXT (s : string) : bool :=
  Z.of_nat (String.length s) <=? 65535.

Definition fits_nullable_TEXT (s : option string) : bool :=
  match s with
  | Some v => fits_TEXT v
  | None => true
  end.

(** Characters of a UTF-8 string: the bytes that do not continue one. *)
Fixpoint utf8_length (s : string) : nat :=
  match s with
  | EmptyString => O
  | String c rest =>
      let n := nat_of_ascii c in
      if (128 <=? n)%nat && (n <? 192)%nat
      then utf8_length rest
      else S (utf8_length rest)
  end.

(** A VARCHAR(n) column holds at most [n] characters. *)
Definition fits_VARCHAR (n : Z) (s : string) : bool :=
  Z.of_nat (utf8_length s) <=? n.

(** The first TEXT column of [applications], in the order of the table, that
    the row's value does not fit. *)
Definition too_long_application (row : ApplicationRow.t) : option string :=
  if negb (fits_TEXT (ApplicationRow.full_name row)) then Some "full_name"
  else if negb (fits_TEXT (ApplicationRow.id_number row)) then Some "id_number"
  else if negb (fits_TEXT (ApplicationRow.phone_number row)) then Some "phone_number"
  else if negb (fits_nullable_TEXT (ApplicationRow.email row)) then Some "email"
  else if negb (fits_TEXT (ApplicationRow.property_address row))
       then Some "property_address"
  else if negb (fits_TEXT (ApplicationRow.stand_number row)) then Some "stand_number"
  else if negb (fits_TEXT (ApplicationRow.property_type row))
       then Some "property_type"
  else if negb (fits_TEXT (ApplicationRow.reason row)) then Some "reason"
  else if negb (fits_nullable_TEXT (ApplicationRow.admin_notes row))
       then Some "admin_notes"
  else if negb (fits_nullable_TEXT (ApplicationRow.reviewed_by row))
       then Some "reviewed_by"
  else None.

(** [INSERT INTO applications (...) VALUES (...)].  The values must fit the
    TEXT columns; [id] is the primary key and [reference_number] is UNIQUE.
    The generated [id] (36 characters from [randomUUID()]), the generated
    [reference_number] and the status fit their VARCHAR columns. *)
Definition insert_application (row : ApplicationRow.t) (db : Database)
  : Result Database :=
  match too_long_application row with
  | Some column => Err (DataTooLong column)
  | None =>
      if existsb (fun r => String.eqb (ApplicationRow.id r) (ApplicationRow.id row))
                 (applications db)
      then Err (DuplicateEntry "PRIMARY")
      else if existsb (fun r => String.eqb (ApplicationRow.reference_number r)
                                           (ApplicationRow.reference_number row))
                      (applications db)
      then Err (DuplicateEntry "reference_number")
      else Ok (mkDatabase (applications db ++ [row]) (admins db))
  end.

(** [UPDATE applications SET status = ?, reviewed_by = ?, admin_notes = ?,
    reason = ?, review_date = ?, completed_date = ? WHERE id = ?], with the two
    dates as the DATETIME columns take them. *)
Definition set_status_row (status : Status) (reviewed_by admin_notes : option string)
    (reason : string) (review_date completed_date : option Datetime)
    (r : ApplicationRow.t) : ApplicationRow.t :=
  ApplicationRow.mk
    (ApplicationRow.id r) (ApplicationRow.reference_number r)
    (ApplicationRow.full_name r) (ApplicationRow.id_number r)
    (ApplicationRow.phone_number r) (ApplicationRow.email r)
    (ApplicationRow.property_address r) (ApplicationRow.stand_number r)
    (ApplicationRow.property_type r) reason
    (ApplicationRow.documents r) (ApplicationRow.uploaded_documents r)
    status (ApplicationRow.submitted_date r)
    review_date completed_date admin_notes reviewed_by.

Definition update_status (status : Status) (reviewed_by admin_notes : option string)
    (reason : string) (review_date completed_date : option Datetime) (id : string)
    (db : Database) : Database :=
  mkDatabase
    (map (fun r => if String.eqb (ApplicationRow.id r) id
                   then set_status_row status reviewed_by admin_notes reason
                                       review_date completed_date r
                   else r)
         (applications db))
    (admins db).

(** [UPDATE applications SET documents = ?, uploaded_documents = ?,
    status = 'under_review', review_date = ? WHERE id = ?], with the date as
    the DATETIME column takes it. *)
Definition set_documents_row (documents uploaded_documents : option (list string))
    (review_date : option Datetime) (r : ApplicationRow.t) : ApplicationRow.t :=
  ApplicationRow.mk
    (ApplicationRow.id r) (ApplicationRow.reference_number r)
    (ApplicationRow.full_name r) (ApplicationRow.id_number r)
    (ApplicationRow.phone_number r) (ApplicationRow.email r)
    (ApplicationRow.property_address r) (ApplicationRow.stand_number r)
    (ApplicationRow.property_type r) (ApplicationRow.reason r)
    documents uploaded_documents
    under_review (ApplicationRow.submitted_date r)
    review_date (ApplicationRow.completed_date r)
    (ApplicationRow.admin_notes r) (ApplicationRow.reviewed_by r).

Definition update_documents (documents uploaded_documents : option (list string))
    (review_date : option Datetime) (id : string) (db : Database) : Database :=
  mkDatabase
    (map (fun r => if String.eqb (ApplicationRow.id r) id
                   then set_documents_row documents uploaded_documents review_date r
                   else r)
         (applications db))
    (admins db).

(** [SELECT * FROM admins WHERE id = ?] and [... WHERE username = ?] *)
Definition select_admins_by_id (id : string) (db : Database) : list AdminRow.t :=
  filter (fun r => String.eqb (AdminRow.id r) id) (admins db).

Definition select_admins_by_username (username : string) (db : Database)
  : list AdminRow.t :=
  filter (fun r => String.eqb (AdminRow.username r) username) (admins db).

(** The first column of [admins], in the order of the table, that the row's
    value does not fit: [username] is VARCHAR(255), the other two are TEXT. *)
Definition too_long_admin (row : AdminRow.t) : option string :=
  if negb (fits_VARCHAR 255 (AdminRow.username row)) then Some "username"
  else if negb (fits_TEXT (AdminRow.password row)) then Some "password"
  else if negb (fits_TEXT (AdminRow.full_name row)) then Some "full_name"
  else None.

(** [INSERT INTO admins (...) VALUES (...)].  The values must fit their
    columns; [id] is the primary key (36 characters from [randomUUID()] fit
    it) and [username] is UNIQUE. *)
Definition insert_admin (row : AdminRow.t) (db : Database) : Result Database :=
  match too_long_admin row with
  | Some column => Err (DataTooLong column)
  | None =>
      if existsb (fun r => String.eqb (AdminRow.id r) (AdminRow.id row)) (admins db)
      then Err (DuplicateEntry "PRIMARY")
      else if existsb (fun r => String.eqb (AdminRow.username r)
                                           (AdminRow.username row))
                      (admins db)
      then Err (DuplicateEntry "username")
      else Ok (mkDatabase (applications db) (admins db ++ [row]))
  end.

End SQL.

(** ** The storage object

    Its only field is the connection; the tables live behind it.  A method
    runs on the object and either returns a value or throws, leaving the
    object in some state either way. *)

Record MySQLStorage := mkStorage { connection : option Database }.

Inductive Outcome (A : Type) :=
| Returned (a : A) (this : MySQLStorage)
| Thrown (e : Error) (this : MySQLStorage).
Arguments Returned {A} a this.
Arguments Thrown {A} e this.

Definition Async (A : Type) := MySQLStorage -> Outcome A.

Definition ret {A} (a : A) : Async A := fun this => Returned a this.

Definition bind {A B} (c : Async A) (k : A -> Async B) : Async B :=
  fun this =>
    match c this with
    | Returned a this' => k a this'
    | Thrown e this' => Thrown e this'
    end.

Notation "x <- c ;; k" := (bind c (fun x => k))
  (at level 61, c at next level, right associativity).
Notation "c ;; k" := (bind c (fun _ => k))
  (at level 61, right associativity).

(** [if (!this.connection) throw new Error('Database connection not established')] *)
Definition requireConnection : Async unit :=
  fun this =>
    match connection this with
    | Some _ => Returned tt this
    | None => Thrown ConnectionNotEstablished this
    end.

(** [await this.connection.execute(...)] for a SELECT. *)
Definition query {A} (q : Database -> A) : Async A :=
  fun this =>
    match connection this with
    | Some db => Returned (q db) this
    | None => Thrown ConnectionNotEstablished this
    end.

(** [await this.connection.execute(...)] for a statement that writes; a
    statement that fails writes nothing. *)
Definition execute (stmt : Database -> Result Database) : Async unit :=
  fun this =>
    match connection this with
    | Some db =>
        match stmt db with
        | Ok db' => Returned tt (mkStorage (Some db'))
        | Err e => Thrown e this
        end
    | None => Thrown ConnectionNotEstablished this
    end.

Definition mapRowToApplication (row : ApplicationRow.t) : Application.t :=
  Application.mk
    (ApplicationRow.id row)
    (ApplicationRow.reference_number row)
    (ApplicationRow.full_name row)
    (ApplicationRow.id_number row)
    (ApplicationRow.phone_number row)
    (ApplicationRow.email row)
    (ApplicationRow.property_address row)
    (ApplicationRow.stand_number row)
    (ApplicationRow.property_type row)
    (ApplicationRow.reason row)
    (match ApplicationRow.documents row with Some l => l | None => [] end)
    (match ApplicationRow.uploaded_documents row with Some l => l | None => [] end)
    (ApplicationRow.status row)
    (from_datetime (ApplicationRow.submitted_date row))
    (option_map from_datetime (ApplicationRow.review_date row))
    (option_map from_datetime (ApplicationRow.completed_date row))
    (ApplicationRow.admin_notes row)
    (ApplicationRow.reviewed_by row).

Definition mapRowToAdmin (row : AdminRow.t) : Admin.t :=
  Admin.mk (AdminRow.id row) (AdminRow.username row) (AdminRow.password row)
           (AdminRow.full_name row) (from_datetime (AdminRow.created_at row)).

Definition createTables : Async unit :=
  requireConnection ;;
  execute SQL.create_table_if_not_exists ;;
  execute SQL.create_table_if_not_exists.

Definition createDefaultAdmin (uuid : string) (now : Date) : Async unit :=
  requireConnection ;;
  let defaultAdminId := uuid in
  rows <- query (SQL.select_admins_by_username "admin") ;;
  if (List.length rows =? 0)%nat
  then execute (SQL.insert_admin
                  (AdminRow.mk defaultAdminId "admin" "admin123"
                               "System Administrator" (to_datetime now)))
  else ret tt.

(** [server] is the database [mysql.createConnection] reaches, if it does. *)
Definition initializeDatabase (server : option Database) (uuid : string)
    (now : Date) : Async unit :=
  fun this =>
    match server with
    | None => Thrown ConnectionFailed this
    | Some db =>
        (createTables ;; createDefaultAdmin uuid now) (mkStorage (Some db))
    end.

Definition createApplication (uuid : string) (rnd : Z) (now : Date)
    (insertApplication : InsertApplication.t) : Async Application.t :=
  requireConnection ;;
  let id := uuid in
  let referenceNumber := makeReferenceNumber rnd in
  let submittedDate := now in
  let application :=
    Application.mk
      id
      referenceNumber
      (InsertApplication.fullName insertApplication)
      (InsertApplication.idNumber insertApplication)
      (InsertApplication.phoneNumber insertApplication)
      (js_or (InsertApplication.email insertApplication) None)
      (InsertApplication.propertyAddress insertApplication)
      (InsertApplication.standNumber insertApplication)
      (InsertApplication.propertyType insertApplication)
      (InsertApplication.reason insertApplication)
      (or_else (InsertApplication.documents insertApplication) [])
      (or_else (InsertApplication.uploadedDocuments insertApplication) [])
      submitted
      submittedDate
      None None None None in
  execute (SQL.insert_application
             (ApplicationRow.mk
                (Application.id application)
                (Application.referenceNumber application)
                (Application.fullName application)
                (Application.idNumber application)
                (Application.phoneNumber application)
                (Application.email application)
                (Application.propertyAddress application)
                (Application.standNumber application)
                (Application.propertyType application)
                (Application.reason application)
                (Some (or_val (Application.documents application) []))
                (Some (or_val (Application.uploadedDocuments application) []))
                (Application.status application)
                (to_datetime (Application.submittedDate application))
                (option_map to_datetime (Application.reviewDate application))
                (option_map to_datetime (Application.completedDate application))
                (Application.adminNotes application)
                (Application.reviewedBy application))) ;;
  ret application.

Definition getApplication (id : string) : Async (option Application.t) :=
  requireConnection ;;
  rows <- query (SQL.select_applications_by_id id) ;;
  match rows with
  | [] => ret None
  | row :: _ => ret (Some (mapRowToApplication row))
  end.

Definition getApplicationByReference (referenceNumber : string)
  : Async (option Application.t) :=
  requireConnection ;;
  rows <- query (SQL.select_applications_by_reference referenceNumber) ;;
  match rows with
  | [] => ret None
  | row :: _ => ret (Some (mapRowToApplication row))
  end.

Definition updateApplicationStatus (now : Date) (id : string) (status : Status)
    (reviewedBy adminNotes reason : option string)
  : Async (option Application.t) :=
  requireConnection ;;
  found <- getApplication id ;;
  match found with
  | None => ret None
  | Some application =>
      let reviewDate := or_else (Application.reviewDate application) now in
      let completedDate :=
        if Status_eqb status approved || Status_eqb status rejected
        then Some now
        else Application.completedDate application in
      execute (fun db =>
        Ok (SQL.update_status
              status
              (js_or reviewedBy (Application.reviewedBy application))
              (js_or adminNotes (Application.adminNotes application))
              (or_else reason (Application.reason application))
              (Some (to_datetime reviewDate))
              (option_map to_datetime completedDate)
              id db)) ;;
      ret (Some (Application.mk
        (Application.id application)
        (Application.referenceNumber application)
        (Application.fullName application)
        (Application.idNumber application)
        (Application.phoneNumber application)
        (Application.email application)
        (Application.propertyAddress application)
        (Application.standNumber application)
        (Application.propertyType application)
        (or_else reason (Application.reason application))
        (Application.documents application)
        (Application.uploadedDocuments application)
        status
        (Application.submittedDate application)
        (Some reviewDate)
        completedDate
        (js_or adminNotes (Application.adminNotes application))
        (js_or reviewedBy (Application.reviewedBy application))))
  end.

Definition attachDocuments (now : Date) (id : string) (documents : list string)
  : Async (option Application.t) :=
  requireConnection ;;
  found <- getApplication id ;;
  match found with
  | None => ret None
  | Some application =>
      let currentDocuments := or_val (Application.documents application) [] in
      let updatedDocuments := (currentDocuments ++ documents)%list in
      execute (fun db =>
        Ok (SQL.update_documents (Some updatedDocuments) (Some updatedDocuments)
                                 (Some (to_datetime now)) id db)) ;;
      ret (Some (Application.mk
        (Application.id application)
        (Application.referenceNumber application)
        (Application.fullName application)
        (Application.idNumber application)
        (Application.phoneNumber application)
        (Application.email application)
        (Application.propertyAddress application)
        (Application.standNumber application)
        (Application.propertyType application)
        (Application.reason application)
        updatedDocuments
        updatedDocuments
        under_review
        (Application.submittedDate application)
        (Some now)
        (Application.completedDate application)
        (Application.adminNotes application)
        (Application.reviewedBy application)))
  end.

Definition getAdmin (id : string) : Async (option Admin.t) :=
  requireConnection ;;
  rows <- query (SQL.select_admins_by_id id) ;;
  match rows with
  | [] => ret None
  | row :: _ => ret (Some (mapRowToAdmin row))
  end.

Definition getAdminByUsername (username : string) : Async (option Admin.t) :=
  requireConnection ;;
  rows <- query (SQL.select_admins_by_username username) ;;
  match rows with
  | [] => ret None
  | row :: _ => ret (Some (mapRowToAdmin row))
  end.

Definition createAdmin (uuid : string) (now : Date) (insertAdmin : InsertAdmin.t)
  : Async Admin.t :=
  requireConnection ;;
  let id := uuid in
  let admin :=
    Admin.mk id (InsertAdmin.username insertAdmin)
             (InsertAdmin.password insertAdmin)
             (InsertAdmin.fullName insertAdmin) now in
  execute (SQL.insert_admin
             (AdminRow.mk (Admin.id admin) (Admin.username admin)
                          (Admin.password admin) (Admin.fullName admin)
                          (to_datetime (Admin.createdAt admin)))) ;;
  ret admin.

(** ** Histories of a store *)

(** One construction of the store over the database [db]: the constructor
    starts from no connection and runs [initializeDatabase]. *)
Definition construct (uuid : string) (now : Date) (db : Database) : Outcome unit :=
  initializeDatabase (Some db) uuid now (mkStorage None).

(** Consecutive constructions over the same database, each with its own
    [randomUUID()] and [new Date()]; [None] when one of them throws. *)
Fixpoint initializations (envs : list (string * Date)) (db : Database)
  : option Database :=
  match envs with
  | [] => Some db
  | (uuid, now) :: rest =>
      match construct uuid now db with
      | Returned _ this =>
          match connection this with
          | Some db' => initializations rest db'
          | None => None
          end
      | Thrown _ _ => None
      end
  end.

(** The stores a program can hold: constructed over a fresh database, then
    used through the methods that write, and possibly constructed again over
    the database as it then is. *)
Inductive reachable : MySQLStorage -> Prop :=
| reach_construct uuid now this :
    construct uuid now emptyDatabase = Returned tt this ->
    reachable this
| reach_createApplication this uuid rnd now input app this' :
    reachable this ->
    Binary64.is_random rnd = true ->
    createApplication uuid rnd now input this = Returned app this' ->
    reachable this'
| reach_updateApplicationStatus this now id status reviewedBy adminNotes reason r this' :
    reachable this ->
    updateApplicationStatus now id status reviewedBy adminNotes reason this
      = Returned r this' ->
    reachable this'
| reach_attachDocuments this now id documents r this' :
    reachable this ->
    attachDocuments now id documents this = Returned r this' ->
    reachable this'
| reach_createAdmin this uuid now input admin this' :
    reachable this ->
    createAdmin uuid now input this = Returned admin this' ->
    reachable this'
| reach_again this db uuid now this' :
    reachable this ->
    connection this = Some db ->
    construct uuid now db = Returned tt this' ->
    reachable this'.

(** A call of [updateApplicationStatus], with the time at which it runs. *)
Record StatusUpdate := mkStatusUpdate {
  su_now : Date;
  su_id : string;
  su_status : Status;
  su_reviewedBy : option string;
  su_adminNotes : option string;
  su_reason : option string
}.

Definition runStatusUpdate (u : StatusUpdate) : Async (option Application.t) :=
  updateApplicationStatus (su_now u) (su_id u) (su_status u)
                          (su_reviewedBy u) (su_adminNotes u) (su_reason u).

Fixpoint runStatusUpdates (us : list StatusUpdate) : Async unit :=
  match us with
  | [] => ret tt
  | u :: rest => runStatusUpdate u ;; runStatusUpdates rest
  end.

(** ** Predicates on tables *)

Definition decided (s : Status) : Prop := s = approved \/ s = rejected.

(** The constraints the two CREATE TABLE statements declare. *)
Definition constraints_hold (db : Database) : Prop :=
  NoDup (map ApplicationRow.id (applications db)) /\
  NoDup (map ApplicationRow.reference_number (applications db)) /\
  NoDup (map AdminRow.id (admins db)) /\
  NoDup (map AdminRow.username (admins db)).

Definition completed_if_decided (db : Database) : Prop :=
  forall row, In row (applications db) ->
    decided (ApplicationRow.status row) ->
    ApplicationRow.completed_date row <> None.

Definition completed_iff_decided (db : Database) : Prop :=
  forall row, In row (applications db) ->
    (ApplicationRow.completed_date row <> None <->
     decided (ApplicationRow.status row)).

Definition references_well_formed (db : Database) : Prop :=
  forall row, In row (applications db) ->
    matches_reference_pattern (ApplicationRow.reference_number row) = true.

Definition absent (id : string) (db : Database) : Prop :=
  forall row, In row (applications db) -> ApplicationRow.id row <> id.

Definition count_admins (username : string) (db : Database) : nat :=
  List.length (SQL.select_admins_by_username username db).

(** ** Sample values *)

Definition sampleInput : InsertApplication.t :=
  InsertApplication.mk "Jane Doe" "63-123456A63" "0771234567" None
    "12 Hill Road" "4521" "residential" "sale"
    (Some ["deed.pdf"]) (Some ["id.pdf"]).

(** An input whose reason, 65536 bytes, is one byte longer than a TEXT column
    holds, and a username of 256 characters. *)
Definition oversizedInput : InsertApplication.t :=
  InsertApplication.mk "Jane Doe" "63-123456A63" "0771234567" None
    "12 Hill Road" "4521" "residential"
    (string_of_list_ascii (repeat "x"%char (Z.to_nat 65536)))
    None None.

Definition oversizedUsername : string :=
  string_of_list_ascii (repeat "u"%char (Z.to_nat 256)).

Definition sampleDatabase : Database :=
  mkDatabase
    [ApplicationRow.mk "a-1" "RCC-2025-100000" "Jane Doe" "63-123456A63"
       "0771234567" None "12 Hill Road" "4521" "residential" "sale"
       (Some ["deed.pdf"]) (Some ["id.pdf"]) submitted (AtSecond 1) None None
       None None]
    [AdminRow.mk "u-0" "admin" "admin123" "System Administrator" (AtSecond 0)].

Definition sampleStore : MySQLStorage := mkStorage (Some sampleDatabase).

(** [sampleStore] after two more applications, created at 9000 and at 5000,
    and a second admin. *)
Definition secondInput : InsertApplication.t :=
  InsertApplication.mk "John Moyo" "12-345678B12" "0712345678"
    (Some "john@example.org") "3 Main Street" "88" "commercial" "transfer"
    None None.

Definition thirdInput : InsertApplication.t :=
  InsertApplication.mk "Rudo Dube" "08-765432C08" "0733333333" None
    "7 Park Lane" "901" "residential" "sale" (Some ["title.pdf"]) None.

Definition busyDatabase : Database :=
  mkDatabase
    [ApplicationRow.mk "a-1" "RCC-2025-100000" "Jane Doe" "63-123456A63"
       "0771234567" None "12 Hill Road" "4521" "residential" "sale"
       (Some ["deed.pdf"]) (Some ["id.pdf"]) submitted (AtSecond 1) None None
       None None;
     ApplicationRow.mk "a-2" "RCC-2025-999999" "John Moyo" "12-345678B12"
       "0712345678" (Some "john@example.org") "3 Main Street" "88" "commercial"
       "transfer" (Some []) (Some []) submitted (AtSecond 9) None None None None;
     ApplicationRow.mk "a-3" "RCC-2025-550000" "Rudo Dube" "08-765432C08"
       "0733333333" None "7 Park Lane" "901" "residential" "sale"
       (Some ["title.pdf"]) (Some []) submitted (AtSecond 5) None None None None]
    [AdminRow.mk "u-0" "admin" "admin123" "System Administrator" (AtSecond 0);
     AdminRow.mk "u-1" "clerk" "s3cret" "Rates Clerk" (AtSecond 6)].

Definition busyStore : MySQLStorage := mkStorage (Some busyDatabase).

(** ** The records the two updating methods return

    [updatedApplication] is the object literal at the end of
    [updateApplicationStatus] and [attachedApplication] the one at the end of
    [attachDocuments], as functions of the record that was loaded. *)

Definition updatedApplication (now : Date) (status : Status)
    (reviewedBy adminNotes reason : option string)
    (application : Application.t) : Application.t :=
  Application.mk
    (Application.id application)
    (Application.referenceNumber application)
    (Application.fullName application)
    (Application.idNumber application)
    (Application.phoneNumber application)
    (Application.email application)
    (Application.propertyAddress application)
    (Application.standNumber application)
    (Application.propertyType application)
    (or_else reason (Application.reason application))
    (Application.documents application)
    (Application.uploadedDocuments application)
    status
    (Application.submittedDate application)
    (Some (or_else (Application.reviewDate application) now))
    (if Status_eqb status approved || Status_eqb status rejected
     then Some now
     else Application.completedDate application)
    (js_or adminNotes (Application.adminNotes application))
    (js_or reviewedBy (Application.reviewedBy application)).

Definition attachedApplication (now : Date) (documents : list string)
    (application : Application.t) : Application.t :=
  Application.mk
    (Application.id application)
    (Application.referenceNumber application)
    (Application.fullName application)
    (Application.idNumber application)
    (Application.phoneNumber application)
    (Application.email application)
    (Application.propertyAddress application)
    (Application.standNumber application)
    (Application.propertyType application)
    (Application.reason application)
    (or_val (Application.documents application) [] ++ documents)
    (or_val (Application.documents application) [] ++ documents)
    under_review
    (Application.submittedDate application)
    (Some now)
    (Application.completedDate application)
    (Application.adminNotes application)
    (Application.reviewedBy application).

(** The object literal [application] of [createApplication] and the row its
    INSERT writes. *)
Definition createdApplication (uuid : string) (rnd : Z) (now : Date)
    (insertApplication : InsertApplication.t) : Application.t :=
  Application.mk
    uuid
    (makeReferenceNumber rnd)
    (InsertApplication.fullName insertApplication)
    (InsertApplication.idNumber insertApplication)
    (InsertApplication.phoneNumber insertApplication)
    (js_or (InsertApplication.email insertApplication) None)
    (InsertApplication.propertyAddress insertApplication)
    (InsertApplication.standNumber insertApplication)
    (InsertApplication.propertyType insertApplication)
    (InsertApplication.reason insertApplication)
    (or_else (InsertApplication.documents insertApplication) [])
    (or_else (InsertApplication.uploadedDocuments insertApplication) [])
    submitted
    now
    None None None None.

Definition insertedRow (application : Application.t) : ApplicationRow.t :=
  ApplicationRow.mk
    (Application.id application)
    (Application.referenceNumber application)
    (Application.fullName application)
    (Application.idNumber application)
    (Application.phoneNumber application)
    (Application.email application)
    (Application.propertyAddress application)
    (Application.standNumber application)
    (Application.propertyType application)
    (Application.reason application)
    (Some (or_val (Application.documents application) []))
    (Some (or_val (Application.uploadedDocuments application) []))
    (Application.status application)
    (to_datetime (Application.submittedDate application))
    (option_map to_datetime (Application.reviewDate application))
    (option_map to_datetime (Application.completedDate application))
    (Application.adminNotes application)
    (Application.reviewedBy application).

(** The row [createDefaultAdmin] inserts. *)
Definition defaultAdminRow (uuid : string) (now : Date) : AdminRow.t :=
  AdminRow.mk uuid "admin" "admin123" "System Administrator" (to_datetime now).

(** What every reachable store satisfies. *)
Definition invariant (db : Database) : Prop :=
  constraints_hold db /\ completed_if_decided db /\ references_well_formed db.

(** The database [updateApplicationStatus] leaves when it found [row]. *)
Definition db_after_update now id status reviewedBy adminNotes reason row db :=
  let application := mapRowToApplication row in
  SQL.update_status status
    (js_or reviewedBy (Application.reviewedBy application))
    (js_or adminNotes (Application.adminNotes application))
    (or_else reason (Application.reason application))
    (Some (to_datetime (or_else (Application.reviewDate application) now)))
    (option_map to_datetime
       (if Status_eqb status approved || Status_eqb status rejected
        then Some now else Application.completedDate application))
    id db.

Definition db_after_attach (now : Date) id (documents : list string) row db :=
  let updated := (Application.documents (mapRowToApplication row) ++ documents)%list in
  SQL.update_documents (Some updated) (Some updated) (Some (to_datetime now)) id db.

(** A record as a later select returns it: its three dates have passed
    through DATETIME columns. *)
Definition asStored (a : Application.t) : Application.t :=
  Application.mk
    (Application.id a)
    (Application.referenceNumber a)
    (Application.fullName a)
    (Application.idNumber a)
    (Application.phoneNumber a)
    (Application.email a)
    (Application.propertyAddress a)
    (Application.standNumber a)
    (Application.propertyType a)
    (Application.reason a)
    (Application.documents a)
    (Application.uploadedDocuments a)
    (Application.status a)
    (DATETIME (Application.submittedDate a))
    (option_map DATETIME (Application.reviewDate a))
    (option_map DATETIME (Application.completedDate a))
    (Application.adminNotes a)
    (Application.reviewedBy a).

Definition adminAsStored (a : Admin.t) : Admin.t :=
  Admin.mk (Admin.id a) (Admin.username a) (Admin.password a)
           (Admin.fullName a) (DATETIME (Admin.createdAt a)).

(** [sampleStore] after [updateApplicationStatus(2000, "a-1", "approved", "clerk")]. *)
Definition decidedDatabase : Database :=
  mkDatabase
    [ApplicationRow.mk "a-1" "RCC-2025-100000" "Jane Doe" "63-123456A63"
       "0771234567" None "12 Hill Road" "4521" "residential" "sale"
       (Some ["deed.pdf"]) (Some ["id.pdf"]) approved (AtSecond 1)
       (Some (AtSecond 2)) (Some (AtSecond 2)) None (Some "clerk")]
    [AdminRow.mk "u-0" "admin" "admin123" "System Administrator" (AtSecond 0)].

Definition decidedStore : MySQLStorage := mkStorage (Some decidedDatabase).

(** [decidedStore] after [updateApplicationStatus(3000, "a-1", "under_review")]. *)
Definition reopenedDatabase : Database :=
  mkDatabase
    [ApplicationRow.mk "a-1" "RCC-2025-100000" "Jane Doe" "63-123456A63"
       "0771234567" None "12 Hill Road" "4521" "residential" "sale"
       (Some ["deed.pdf"]) (Some ["id.pdf"]) under_review (AtSecond 1)
       (Some (AtSecond 2)) (Some (AtSecond 2)) None (Some "clerk")]
    [AdminRow.mk "u-0" "admin" "admin123" "System Administrator" (AtSecond 0)].

Definition reopenedStore : MySQLStorage := mkStorage (Some reopenedDatabase).

(** ** Four readings that the code does not bear out *)

(** [completedDate] is set exactly when the status is decided. *)
Definition completedDate_iff_decided : Prop :=
  forall this db, reachable this -> connection this = Some db ->
    completed_iff_decided db.

(** [attachDocuments] extends both [documents] and [uploadedDocuments] by the
    given documents, forces the status and stamps the review date. *)
Definition attach_extends_both_sequences : Prop :=
  forall this id app now documents app' this',
    reachable this ->
    getApplication id this = Returned (Some app) this ->
    attachDocuments now id documents this = Returned (Some app') this' ->
    Application.documents app'
    = (Application.documents app ++ documents)%list /\
    Application.uploadedDocuments app'
    = (Application.uploadedDocuments app ++ documents)%list /\
    Application.status app' = under_review /\
    Application.reviewDate app' = Some now.

(** Two status updates in succession return the same [reviewDate]. *)
Definition reviewDate_same_in_successive_updates : Prop :=
  forall this id app now1 status1 reviewedBy1 adminNotes1 reason1
         now2 status2 reviewedBy2 adminNotes2 reason2 app1 this1 app2 this2,
    reachable this ->
    getApplication id this = Returned (Some app) this ->
    updateApplicationStatus now1 id status1 reviewedBy1 adminNotes1 reason1 this
      = Returned (Some app1) this1 ->
    updateApplicationStatus now2 id status2 reviewedBy2 adminNotes2 reason2 this1
      = Returned (Some app2) this2 ->
    Application.reviewDate app2 = Application.reviewDate app1.

(** A [completedDate] that is set survives every later status update. *)
Definition completedDate_first_write_wins : Prop :=
  forall this id app d now status reviewedBy adminNotes reason app' this',
    reachable this ->
    getApplication id this = Returned (Some app) this ->
    Application.completedDate app = Some d ->
    updateApplicationStatus now id status reviewedBy adminNotes reason this
      = Returned (Some app') this' ->
    Application.completedDate app' = Some d.


(** ** The remaining read, and calls as data *)

(** [SELECT * FROM applications ORDER BY submitted_date DESC].  Rows with the
    same date come in table order; MySQL leaves their order open, and nothing
    proved below depends on it. *)
Fixpoint insert_by_submitted_date (r : ApplicationRow.t)
    (sorted : list ApplicationRow.t) : list ApplicationRow.t :=
  match sorted with
  | [] => [r]
  | x :: rest =>
      if seconds (ApplicationRow.submitted_date x)
         <=? seconds (ApplicationRow.submitted_date r)
      then r :: sorted
      else x :: insert_by_submitted_date r rest
  end.

Definition select_applications_newest_first (db : Database)
  : list ApplicationRow.t :=
  fold_right insert_by_submitted_date [] (applications db).

Definition getAllApplications : Async (list Application.t) :=
  requireConnection ;;
  rows <- query select_applications_newest_first ;;
  ret (map mapRowToApplication rows).

(** Rows, and records, in the order of the listing: none before a newer
    one. *)
Definition rows_newest_first (rows : list ApplicationRow.t) : Prop :=
  StronglySorted
    (fun a b => seconds (ApplicationRow.submitted_date b)
                <= seconds (ApplicationRow.submitted_date a))
    rows.

Definition newest_first (apps : list Application.t) : Prop :=
  StronglySorted
    (fun a b => Application.submittedDate b <= Application.submittedDate a)
    apps.

(** The store as the constructor leaves it before [initializeDatabase] has
    connected. *)
Definition unconnected : MySQLStorage := mkStorage None.

(** A call of a method that writes, with the values it draws from
    [randomUUID()], [Math.random()] and [new Date()]. *)
Inductive Call :=
| CallCreateApplication (uuid : string) (rnd : Z) (now : Date)
    (input : InsertApplication.t)
| CallUpdateApplicationStatus (now : Date) (id : string) (status : Status)
    (reviewedBy adminNotes reason : option string)
| CallAttachDocuments (now : Date) (id : string) (documents : list string)
| CallCreateAdmin (uuid : string) (now : Date) (input : InsertAdmin.t)
| CallInitializeAgain (uuid : string) (now : Date).

Definition runCall (c : Call) : Async unit :=
  match c with
  | CallCreateApplication uuid rnd now input =>
      createApplication uuid rnd now input ;; ret tt
  | CallUpdateApplicationStatus now id status reviewedBy adminNotes reason =>
      updateApplicationStatus now id status reviewedBy adminNotes reason ;; ret tt
  | CallAttachDocuments now id documents =>
      attachDocuments now id documents ;; ret tt
  | CallCreateAdmin uuid now input =>
      createAdmin uuid now input ;; ret tt
  | CallInitializeAgain uuid now =>
      fun this => initializeDatabase (connection this) uuid now unconnected
  end.

Fixpoint runCalls (cs : list Call) : Async unit :=
  match cs with
  | [] => ret tt
  | c :: rest => runCall c ;; runCalls rest
  end.

(** The call is a status update of application [id] that supplies a non-empty
    reason. *)
Definition supplies_reason (id : string) (c : Call) : Prop :=
  match c with
  | CallUpdateApplicationStatus _ id' _ _ _ (Some (String _ _)) => id' = id
  | _ => False
  end.

(** The call is a status update of application [id] to approved or rejected. *)
Definition decides (id : string) (c : Call) : Prop :=
  match c with
  | CallUpdateApplicationStatus _ id' status _ _ _ => id' = id /\ decided status
  | _ => False
  end.

(** The fields no method writes after creation: the id, the reference number,
    the submission date and the applicant fields other than [reason], which
    [updateApplicationStatus] overwrites when one is supplied. *)
Definition same_identity (a b : Application.t) : Prop :=
  Application.id a = Application.id b /\
  Application.referenceNumber a = Application.referenceNumber b /\
  Application.submittedDate a = Application.submittedDate b /\
  Application.fullName a = Application.fullName b /\
  Application.idNumber a = Application.idNumber b /\
  Application.phoneNumber a = Application.phoneNumber b /\
  Application.email a = Application.email b /\
  Application.propertyAddress a = Application.propertyAddress b /\
  Application.standNumber a = Application.standNumber b /\
  Application.propertyType a = Application.propertyType b.

(** Truthiness of a nullable text field. *)
Definition nonempty (s : option string) : Prop :=
  exists c rest, s = Some (String c rest).

(** * Properties *)

(** ** Rounding is monotone, and the reference suffix has six digits *)

Module Binary64Facts.
Import Binary64.

Lemma round53_small a : Z.log2 a <= 52 -> round53 a = a.
Proof.
  unfold round53; intros H.
  destruct (Z.leb_spec (Z.log2 a - 52) 0); [reflexivity | lia].
Qed.

(** Shape of a rounded value above 53 bits. *)
Lemma round53_large a :
  52 < Z.log2 a ->
  exists q', round53 a = q' * 2 ^ (Z.log2 a - 52) /\
             a / 2 ^ (Z.log2 a - 52) <= q' <= a / 2 ^ (Z.log2 a - 52) + 1 /\
             (q' = a / 2 ^ (Z.log2 a - 52) + 1 ->
              2 ^ (Z.log2 a - 52 - 1) <= a mod 2 ^ (Z.log2 a - 52)) /\
             (q' = a / 2 ^ (Z.log2 a - 52) ->
              a mod 2 ^ (Z.log2 a - 52) <= 2 ^ (Z.log2 a - 52 - 1)).
Proof.
  intros H. unfold round53.
  destruct (Z.leb_spec (Z.log2 a - 52) 0); [lia|].
  set (s := Z.log2 a - 52) in *.
  destruct (Z.ltb_spec (2 ^ (s - 1)) (a mod 2 ^ s)) as [Hlt|Hge]; cbn [orb].
  - eexists; split; [reflexivity|]. repeat split; lia.
  - destruct (Z.eqb_spec (a mod 2 ^ s) (2 ^ (s - 1))) as [He|Hne]; cbn [andb].
    + destruct (Z.odd (a / 2 ^ s)); eexists; (split; [reflexivity|]); repeat split; lia.
    + eexists; split; [reflexivity|]. repeat split; lia.
Qed.

Lemma quotient_range a :
  52 < Z.log2 a ->
  2 ^ 52 <= a / 2 ^ (Z.log2 a - 52) < 2 ^ 53.
Proof.
  intros H.
  assert (Ha : 0 < a).
  { destruct (Z.lt_ge_cases 0 a); [assumption|].
    rewrite Z.log2_nonpos in H by lia. lia. }
  destruct (Z.log2_spec a Ha) as [Hlo Hhi].
  set (s := Z.log2 a - 52) in *.
  assert (Hs : 0 < 2 ^ s) by (apply Z.pow_pos_nonneg; lia).
  assert (E1 : 2 ^ Z.log2 a = 2 ^ 52 * 2 ^ s).
  { rewrite <- Z.pow_add_r by lia. f_equal. lia. }
  assert (E2 : 2 ^ Z.succ (Z.log2 a) = 2 ^ 53 * 2 ^ s).
  { rewrite <- Z.pow_add_r by lia. f_equal. lia. }
  split.
  - apply Z.div_le_lower_bound; lia.
  - apply Z.div_lt_upper_bound; lia.
Qed.

Lemma round53_mono a b : 0 <= a <= b -> round53 a <= round53 b.
Proof.
  intros [Ha Hab].
  assert (Hlog : Z.log2 a <= Z.log2 b) by (apply Z.log2_le_mono; assumption).
  destruct (Z.le_gt_cases (Z.log2 b) 52) as [Hb|Hb].
  { rewrite !round53_small by lia. assumption. }
  destruct (round53_large b Hb) as (qb & Eb & Rb & _ & Hbdn).
  pose proof (quotient_range b Hb) as Qb.
  set (sb := Z.log2 b - 52) in *.
  assert (Hsb : 0 < 2 ^ sb) by (apply Z.pow_pos_nonneg; lia).
  destruct (Z.le_gt_cases (Z.log2 a) 52) as [Hsmall|Hbig].
  { rewrite (round53_small a Hsmall), Eb.
    assert (a < 2 ^ 53).
    { destruct (Z.eq_dec a 0) as [->|]; [reflexivity|].
      destruct (Z.log2_spec a ltac:(lia)) as [_ Hhi].
      eapply Z.lt_le_trans; [exact Hhi|]. apply Z.pow_le_mono_r; lia. }
    assert (2 ^ 53 <= 2 ^ 52 * 2 ^ sb).
    { change (2 ^ 53) with (2 ^ 52 * 2 ^ 1). apply Z.mul_le_mono_nonneg_l; [lia|].
      apply Z.pow_le_mono_r; lia. }
    nia. }
  destruct (round53_large a Hbig) as (qa & Ea & Ra & Haup & _).
  pose proof (quotient_range a Hbig) as Qa.
  set (sa := Z.log2 a - 52) in *.
  assert (Hsa : 0 < 2 ^ sa) by (apply Z.pow_pos_nonneg; lia).
  rewrite Ea, Eb.
  destruct (Z.eq_dec sa sb) as [E|N].
  - (* same binade *)
    rewrite E in *.
    pose proof (Z.div_mod a (2 ^ sb) ltac:(lia)) as Da.
    pose proof (Z.div_mod b (2 ^ sb) ltac:(lia)) as Db.
    pose proof (Z.mod_pos_bound a (2 ^ sb) Hsb) as Ma.
    pose proof (Z.mod_pos_bound b (2 ^ sb) Hsb) as Mb.
    assert (Hq : a / 2 ^ sb <= b / 2 ^ sb) by (apply Z.div_le_mono; lia).
    apply Z.mul_le_mono_nonneg_r; [lia|].
    destruct (Z.eq_dec (a / 2 ^ sb) (b / 2 ^ sb)) as [Eq|Nq]; [|lia].
    destruct (Z.eq_dec qa (a / 2 ^ sb)) as [Eqa|Nqa]; [lia|].
    destruct (Z.eq_dec qb (b / 2 ^ sb + 1)) as [Eqb|Nqb]; [lia|].
    (* a rounds up, b rounds down, same quotient: both sit on the tie *)
    assert (Hup : 2 ^ (sb - 1) <= a mod 2 ^ sb) by (apply Haup; lia).
    assert (Hdn : b mod 2 ^ sb <= 2 ^ (sb - 1)) by (apply Hbdn; lia).
    assert (Hmod : a mod 2 ^ sb = b mod 2 ^ sb) by nia.
    assert (a = b) by nia. subst b.
    (* the same input rounds one way only *)
    exfalso. clear - Ea Eb Nqa Nqb Ra Rb Hsb. nia.
  - (* a lower binade *)
    assert (Hlt : sa < sb) by (unfold sa, sb in *; lia).
    assert (2 ^ (sa + 1) <= 2 ^ sb) by (apply Z.pow_le_mono_r; lia).
    rewrite Z.pow_add_r in * by lia. change (2 ^ 1) with 2 in *.
    nia.
Qed.


Lemma representable_multiple a :
  52 < Z.log2 a -> round53 a = a -> a mod 2 ^ (Z.log2 a - 52) = 0.
Proof.
  intros H E. destruct (round53_large a H) as (q & Eq & _).
  rewrite E in Eq. rewrite Eq at 1. apply Z.mod_mul.
  apply Z.pow_nonzero; lia.
Qed.

Lemma is_random_range x : is_random x = true -> 0 <= x <= max_random.
Proof.
  unfold is_random, representable. intros H.
  apply andb_prop in H as [H Hlt]. apply andb_prop in H as [H0 Hr].
  apply Z.leb_le in H0. apply Z.eqb_eq in Hr. apply Z.ltb_lt in Hlt.
  split; [assumption|].
  destruct (Z.le_gt_cases (Z.log2 x) 1072) as [Hlow|Hhigh].
  - destruct (Z.eq_dec x 0) as [->|Hx]; [vm_compute; discriminate|].
    destruct (Z.log2_spec x ltac:(lia)) as [_ Hhi].
    assert (2 ^ Z.succ (Z.log2 x) <= 2 ^ 1073) by (apply Z.pow_le_mono_r; lia).
    assert (2 ^ 1073 <= max_random) by (vm_compute; discriminate).
    lia.
  - assert (Hx : 0 < x).
    { destruct (Z.lt_ge_cases 0 x); [assumption|].
      rewrite Z.log2_nonpos in Hhigh by lia. lia. }
    assert (Hl : Z.log2 x = 1073).
    { assert (Z.log2 x < 1074); [|lia].
      apply Z.log2_lt_pow2; [assumption|]. exact Hlt. }
    pose proof (representable_multiple x ltac:(lia) Hr) as Hm.
    rewrite Hl in Hm. change (1073 - 52) with 1021 in Hm.
    apply Z.mod_divide in Hm; [|apply Z.pow_nonzero; lia].
    destruct Hm as [k Hk]. subst x.
    unfold max_random, one, unit_exp in *.
    change (2 ^ 1074) with (2 ^ 53 * 2 ^ 1021) in Hlt.
    assert (0 < 2 ^ 1021) by (apply Z.pow_pos_nonneg; lia).
    apply Z.mul_le_mono_nonneg_r; [lia|].
    assert (k < 2 ^ 53) by (apply Z.mul_lt_mono_pos_r with (p := 2 ^ 1021); assumption).
    lia.
Qed.

End Binary64Facts.

Example round53_ties_to_even :
  Binary64.round53 (2 ^ 53 + 1) = 2 ^ 53 /\
  Binary64.round53 (2 ^ 53 + 3) = 2 ^ 53 + 4 /\
  Binary64.round53 (2 ^ 54 + 1) = 2 ^ 54 /\
  Binary64.round53 (2 ^ 54 + 3) = 2 ^ 54 + 4.
Proof. repeat split. Qed.

Example is_random_edges :
  Binary64.is_random 0 = true /\
  Binary64.is_random Binary64.max_random = true /\
  Binary64.is_random (Binary64.max_random + 1) = false /\
  Binary64.is_random Binary64.one = false.
Proof. repeat split; vm_compute; reflexivity. Qed.

Example makeReferenceNumber_edges :
  makeReferenceNumber 0 = "RCC-2025-100000" /\
  makeReferenceNumber (2 ^ 1073) = "RCC-2025-550000" /\
  makeReferenceNumber Binary64.max_random = "RCC-2025-999999".
Proof. repeat split; vm_compute; reflexivity. Qed.

Lemma referenceSuffix_range rnd :
  Binary64.is_random rnd = true -> 100000 <= referenceSuffix rnd <= 999999.
Proof.
  intros H. apply Binary64Facts.is_random_range in H as [H0 Hmax].
  unfold referenceSuffix, Binary64.floor, Binary64.add, Binary64.mul_int.
  set (lo := Binary64.round53 (0 * 900000)).
  set (p := Binary64.round53 (rnd * 900000)).
  set (hi := Binary64.round53 (Binary64.max_random * 900000)).
  assert (Hone : 0 < Binary64.one) by (vm_compute; reflexivity).
  assert (Hp0 : lo <= p) by (apply Binary64Facts.round53_mono; lia).
  assert (Hp1 : p <= hi) by (apply Binary64Facts.round53_mono; lia).
  assert (Hz : 0 <= lo) by (vm_compute; discriminate).
  assert (Hc : 0 <= Binary64.of_int 100000) by (vm_compute; discriminate).
  assert (Hs0 : Binary64.round53 (lo + Binary64.of_int 100000)
                <= Binary64.round53 (p + Binary64.of_int 100000))
    by (apply Binary64Facts.round53_mono; lia).
  assert (Hs1 : Binary64.round53 (p + Binary64.of_int 100000)
                <= Binary64.round53 (hi + Binary64.of_int 100000))
    by (apply Binary64Facts.round53_mono; lia).
  split.
  - apply Z.le_trans
      with (Binary64.round53 (lo + Binary64.of_int 100000) / Binary64.one).
    + vm_compute; discriminate.
    + apply Z.div_le_mono; assumption.
  - apply Z.le_trans
      with (Binary64.round53 (hi + Binary64.of_int 100000) / Binary64.one).
    + apply Z.div_le_mono; assumption.
    + vm_compute; discriminate.
Qed.


Ltac div_lia := Z.div_mod_to_equations; lia.

Lemma is_digit_digit_char n : is_digit (digit_char (n mod 10)) = true.
Proof.
  pose proof (Z.mod_pos_bound n 10 ltac:(lia)) as H.
  assert (C : n mod 10 = 0 \/ n mod 10 = 1 \/ n mod 10 = 2 \/ n mod 10 = 3 \/
              n mod 10 = 4 \/ n mod 10 = 5 \/ n mod 10 = 6 \/ n mod 10 = 7 \/
              n mod 10 = 8 \/ n mod 10 = 9) by lia.
  repeat (destruct C as [-> | C]; [reflexivity|]).
  rewrite C. reflexivity.
Qed.

Lemma decimal_digits_more fuel n acc :
  n / 10 <> 0 ->
  decimal_digits (S fuel) n acc =
  decimal_digits fuel (n / 10) (String (digit_char (n mod 10)) acc).
Proof.
  intros H. cbn [decimal_digits].
  destruct (Z.eqb_spec (n / 10) 0); [contradiction | reflexivity].
Qed.

Lemma decimal_digits_last fuel n acc :
  n / 10 = 0 ->
  decimal_digits (S fuel) n acc = String (digit_char (n mod 10)) acc.
Proof.
  intros H. cbn [decimal_digits]. rewrite H. reflexivity.
Qed.

Lemma Number_toString_six n :
  100000 <= n <= 999999 ->
  Number_toString n =
  String (digit_char (n / 100000 mod 10))
  (String (digit_char (n / 10000 mod 10))
  (String (digit_char (n / 1000 mod 10))
  (String (digit_char (n / 100 mod 10))
  (String (digit_char (n / 10 mod 10))
  (String (digit_char (n mod 10)) ""))))).
Proof.
  intros H. unfold Number_toString.
  assert (E2 : n / 10 / 10 = n / 100) by (rewrite Z.div_div by lia; reflexivity).
  assert (E3 : n / 100 / 10 = n / 1000) by (rewrite Z.div_div by lia; reflexivity).
  assert (E4 : n / 1000 / 10 = n / 10000) by (rewrite Z.div_div by lia; reflexivity).
  assert (E5 : n / 10000 / 10 = n / 100000) by (rewrite Z.div_div by lia; reflexivity).
  rewrite decimal_digits_more by div_lia.
  rewrite decimal_digits_more by div_lia. rewrite E2.
  rewrite decimal_digits_more by div_lia. rewrite E3.
  rewrite decimal_digits_more by div_lia. rewrite E4.
  rewrite decimal_digits_more by div_lia. rewrite E5.
  rewrite decimal_digits_last by div_lia.
  reflexivity.
Qed.

Lemma makeReferenceNumber_matches rnd :
  Binary64.is_random rnd = true ->
  matches_reference_pattern (makeReferenceNumber rnd) = true.
Proof.
  intros H. apply referenceSuffix_range in H.
  unfold makeReferenceNumber. rewrite (Number_toString_six _ H).
  cbn -[Z.div Z.modulo digit_char is_digit].
  rewrite !is_digit_digit_char. reflexivity.
Qed.

(** ** Lists and tables *)

Section Lists.
Context {A : Type}.

Lemma filter_map_stable (p : A -> bool) (f : A -> A) (l : list A) :
  (forall x, p (f x) = p x) -> filter p (map f l) = map f (filter p l).
Proof.
  intros Hp. induction l as [|x l IH]; cbn; [reflexivity|].
  rewrite Hp. destruct (p x); cbn; rewrite IH; reflexivity.
Qed.

Lemma map_fixed_on_filter (p : A -> bool) (f : A -> A) (l : list A) :
  (forall x, p x = true -> f x = x) -> map f (filter p l) = filter p l.
Proof.
  intros Hf. induction l as [|x l IH]; cbn; [reflexivity|].
  destruct (p x) eqn:E; cbn; [rewrite (Hf x E), IH|]; auto.
Qed.

Lemma existsb_eqb_false (key : A -> string) (k : string) (l : list A) :
  existsb (fun r => String.eqb (key r) k) l = false -> ~ In k (map key l).
Proof.
  induction l as [|x l IH]; cbn; [tauto|].
  intros H. apply orb_false_iff in H as [Hx Hl].
  apply String.eqb_neq in Hx. intros [E|I]; [congruence | exact (IH Hl I)].
Qed.

Lemma existsb_eqb_true (key : A -> string) (k : string) (l : list A) :
  existsb (fun r => String.eqb (key r) k) l = true -> In k (map key l).
Proof.
  induction l as [|x l IH]; cbn; [discriminate|].
  intros H. apply orb_true_iff in H as [Hx|Hl].
  - left. apply String.eqb_eq. exact Hx.
  - right. exact (IH Hl).
Qed.

Lemma NoDup_snoc (l : list A) (x : A) :
  NoDup l -> ~ In x l -> NoDup (l ++ [x]).
Proof.
  intros Hl Hx. induction Hl as [|y l Hy Hl IH]; cbn.
  - constructor; [tauto | constructor].
  - constructor.
    + rewrite in_app_iff. cbn. intros [I|[E|[]]]; [tauto|].
      subst. apply Hx. left. reflexivity.
    + apply IH. intros I. apply Hx. right. exact I.
Qed.

Lemma filter_unique_key (key : A -> string) (k : string) (l : list A) :
  NoDup (map key l) ->
  (List.length (filter (fun r => String.eqb (key r) k) l) <= 1)%nat.
Proof.
  induction l as [|x l IH]; cbn; intros N; [lia|].
  inversion N as [|y ys Hx Hl]; subst.
  destruct (String.eqb_spec (key x) k) as [E|_]; [|exact (IH Hl)].
  assert (F : filter (fun r => String.eqb (key r) k) l = []).
  { clear IH N Hl. induction l as [|z l IHl]; cbn; [reflexivity|].
    destruct (String.eqb_spec (key z) k) as [Ez|_].
    - exfalso. apply Hx. left. congruence.
    - apply IHl. intros I. apply Hx. right. exact I. }
  cbn. rewrite F. cbn. lia.
Qed.

End Lists.

Lemma filter_none_of_absent id db :
  absent id db -> SQL.select_applications_by_id id db = [].
Proof.
  unfold absent, SQL.select_applications_by_id.
  induction (applications db) as [|r l IH]; intros H; cbn; [reflexivity|].
  destruct (String.eqb_spec (ApplicationRow.id r) id) as [E|N].
  - exfalso. apply (H r); [left; reflexivity | exact E].
  - apply IH. intros row I. apply H. right. exact I.
Qed.

(** ** The methods on a store with a connection *)

Lemma storage_eta this db : connection this = Some db -> this = mkStorage (Some db).
Proof. destruct this as [c]; cbn; intros ->; reflexivity. Qed.

Lemma getApplication_on db id :
  getApplication id (mkStorage (Some db)) =
  Returned (option_map mapRowToApplication
              (hd_error (SQL.select_applications_by_id id db)))
           (mkStorage (Some db)).
Proof.
  unfold getApplication, bind, requireConnection, query, ret; cbn.
  destruct (SQL.select_applications_by_id id db); reflexivity.
Qed.

Lemma getApplication_inv id this r this' :
  getApplication id this = Returned r this' ->
  exists db, this = mkStorage (Some db) /\ this' = this /\
    r = option_map mapRowToApplication
          (hd_error (SQL.select_applications_by_id id db)).
Proof.
  destruct this as [[db|]].
  - rewrite getApplication_on. intros E; inversion E; subst.
    exists db. auto.
  - cbv. discriminate.
Qed.

Lemma to_from_datetime d : to_datetime (from_datetime d) = d.
Proof.
  destruct d as [s]. unfold to_datetime, from_datetime, seconds. f_equal.
  Z.div_mod_to_equations. lia.
Qed.

Lemma DATETIME_from_datetime d : DATETIME (from_datetime d) = from_datetime d.
Proof. unfold DATETIME. rewrite to_from_datetime. reflexivity. Qed.

Lemma DATETIME_idempotent t : DATETIME (DATETIME t) = DATETIME t.
Proof. unfold DATETIME. rewrite to_from_datetime. reflexivity. Qed.

Lemma DATETIME_whole_second t : t mod 1000 = 0 -> DATETIME t = t.
Proof.
  intros H. unfold DATETIME, to_datetime, from_datetime, seconds.
  Z.div_mod_to_equations. lia.
Qed.

Lemma option_map_to_from_datetime d :
  option_map to_datetime (option_map from_datetime d) = d.
Proof. destruct d; cbn; [rewrite to_from_datetime|]; reflexivity. Qed.

Lemma option_map_DATETIME d :
  option_map from_datetime (option_map to_datetime d) = option_map DATETIME d.
Proof. destruct d; reflexivity. Qed.

(** A record read from a row is unchanged by another pass through the
    columns. *)
Lemma asStored_mapRow row :
  asStored (mapRowToApplication row) = mapRowToApplication row.
Proof.
  destruct row. unfold asStored, mapRowToApplication. cbn.
  rewrite DATETIME_from_datetime. f_equal.
  - destruct review_date; cbn; [rewrite DATETIME_from_datetime|]; reflexivity.
  - destruct completed_date; cbn; [rewrite DATETIME_from_datetime|]; reflexivity.
Qed.

Lemma asStored_idempotent a : asStored (asStored a) = asStored a.
Proof.
  destruct a. unfold asStored. cbn. rewrite DATETIME_idempotent. f_equal.
  - destruct reviewDate; cbn; [rewrite DATETIME_idempotent|]; reflexivity.
  - destruct completedDate; cbn; [rewrite DATETIME_idempotent|]; reflexivity.
Qed.

Lemma mapRow_set_status now status reviewedBy adminNotes reason row :
  let application := mapRowToApplication row in
  mapRowToApplication
    (SQL.set_status_row status
       (js_or reviewedBy (Application.reviewedBy application))
       (js_or adminNotes (Application.adminNotes application))
       (or_else reason (Application.reason application))
       (Some (to_datetime (or_else (Application.reviewDate application) now)))
       (option_map to_datetime
          (if Status_eqb status approved || Status_eqb status rejected
           then Some now else Application.completedDate application))
       row)
  = asStored (updatedApplication now status reviewedBy adminNotes reason application).
Proof.
  destruct row. unfold asStored, mapRowToApplication, updatedApplication. cbn.
  rewrite DATETIME_from_datetime, option_map_DATETIME. reflexivity.
Qed.

Lemma mapRow_set_documents now documents row :
  let updated := (Application.documents (mapRowToApplication row) ++ documents)%list in
  mapRowToApplication
    (SQL.set_documents_row (Some updated) (Some updated) (Some (to_datetime now)) row)
  = asStored (attachedApplication now documents (mapRowToApplication row)).
Proof.
  destruct row. unfold asStored, mapRowToApplication, attachedApplication. cbn.
  rewrite DATETIME_from_datetime. f_equal.
  destruct completed_date; cbn; [rewrite DATETIME_from_datetime|]; reflexivity.
Qed.

Lemma updateApplicationStatus_on db now id status reviewedBy adminNotes reason :
  updateApplicationStatus now id status reviewedBy adminNotes reason
    (mkStorage (Some db)) =
  match hd_error (SQL.select_applications_by_id id db) with
  | None => Returned None (mkStorage (Some db))
  | Some row =>
      Returned
        (Some (updatedApplication now status reviewedBy adminNotes reason
                 (mapRowToApplication row)))
        (mkStorage (Some (db_after_update now id status reviewedBy adminNotes
                            reason row db)))
  end.
Proof.
  unfold updateApplicationStatus, bind, requireConnection.
  cbn [connection]. rewrite getApplication_on.
  destruct (SQL.select_applications_by_id id db); reflexivity.
Qed.

Lemma attachDocuments_on db now id documents :
  attachDocuments now id documents (mkStorage (Some db)) =
  match hd_error (SQL.select_applications_by_id id db) with
  | None => Returned None (mkStorage (Some db))
  | Some row =>
      Returned
        (Some (attachedApplication now documents (mapRowToApplication row)))
        (mkStorage (Some (db_after_attach now id documents row db)))
  end.
Proof.
  unfold attachDocuments, bind, requireConnection.
  cbn [connection]. rewrite getApplication_on.
  destruct (SQL.select_applications_by_id id db); reflexivity.
Qed.

Lemma select_after_update_status id id' st rb an rs rd cd db :
  SQL.select_applications_by_id id (SQL.update_status st rb an rs rd cd id' db) =
  if String.eqb id id'
  then map (SQL.set_status_row st rb an rs rd cd) (SQL.select_applications_by_id id db)
  else SQL.select_applications_by_id id db.
Proof.
  unfold SQL.select_applications_by_id, SQL.update_status; cbn [applications].
  rewrite filter_map_stable.
  2: { intros x. destruct (String.eqb (ApplicationRow.id x) id'); reflexivity. }
  destruct (String.eqb_spec id id') as [<-|N].
  - induction (applications db) as [|r l IH]; cbn; [reflexivity|].
    destruct (String.eqb (ApplicationRow.id r) id) eqn:E; cbn; rewrite ?E, IH; reflexivity.
  - apply map_fixed_on_filter. intros x Hx. apply String.eqb_eq in Hx.
    destruct (String.eqb_spec (ApplicationRow.id x) id'); [congruence | reflexivity].
Qed.

Lemma select_after_update_documents id id' d u rd db :
  SQL.select_applications_by_id id (SQL.update_documents d u rd id' db) =
  if String.eqb id id'
  then map (SQL.set_documents_row d u rd) (SQL.select_applications_by_id id db)
  else SQL.select_applications_by_id id db.
Proof.
  unfold SQL.select_applications_by_id, SQL.update_documents; cbn [applications].
  rewrite filter_map_stable.
  2: { intros x. destruct (String.eqb (ApplicationRow.id x) id'); reflexivity. }
  destruct (String.eqb_spec id id') as [<-|N].
  - induction (applications db) as [|r l IH]; cbn; [reflexivity|].
    destruct (String.eqb (ApplicationRow.id r) id) eqn:E; cbn; rewrite ?E, IH; reflexivity.
  - apply map_fixed_on_filter. intros x Hx. apply String.eqb_eq in Hx.
    destruct (String.eqb_spec (ApplicationRow.id x) id'); [congruence | reflexivity].
Qed.

(** An application that is present: what the two updating methods return and
    what a later [getApplication] reads back. *)
Lemma updateApplicationStatus_present this id app now status reviewedBy adminNotes reason :
  getApplication id this = Returned (Some app) this ->
  exists this',
    updateApplicationStatus now id status reviewedBy adminNotes reason this
      = Returned (Some (updatedApplication now status reviewedBy adminNotes reason app)) this'
    /\ getApplication id this'
      = Returned
          (Some (asStored
                   (updatedApplication now status reviewedBy adminNotes reason app)))
          this'.
Proof.
  intros H. apply getApplication_inv in H as (db & -> & _ & E).
  rewrite updateApplicationStatus_on.
  destruct (SQL.select_applications_by_id id db) as [|row rest] eqn:S; [discriminate|].
  cbn in E. injection E as ->. cbn [hd_error].
  eexists; split; [reflexivity|].
  rewrite getApplication_on. unfold db_after_update. cbv zeta.
  rewrite select_after_update_status, String.eqb_refl, S.
  cbn [map hd_error option_map].
  pose proof (mapRow_set_status now status reviewedBy adminNotes reason row) as M.
  cbv zeta in M. rewrite M. reflexivity.
Qed.

Lemma attachDocuments_present this id app now documents :
  getApplication id this = Returned (Some app) this ->
  exists this',
    attachDocuments now id documents this
      = Returned (Some (attachedApplication now documents app)) this'
    /\ getApplication id this'
      = Returned (Some (asStored (attachedApplication now documents app))) this'.
Proof.
  intros H. apply getApplication_inv in H as (db & -> & _ & E).
  rewrite attachDocuments_on.
  destruct (SQL.select_applications_by_id id db) as [|row rest] eqn:S; [discriminate|].
  cbn in E. injection E as ->. cbn [hd_error].
  eexists; split; [reflexivity|].
  rewrite getApplication_on. unfold db_after_attach.
  cbv zeta. rewrite select_after_update_documents, String.eqb_refl, S.
  cbn [map hd_error option_map].
  pose proof (mapRow_set_documents now documents row) as M.
  cbv zeta in M. rewrite M. reflexivity.
Qed.

Lemma updateApplicationStatus_missing this id now status reviewedBy adminNotes reason :
  getApplication id this = Returned None this ->
  updateApplicationStatus now id status reviewedBy adminNotes reason this
    = Returned None this.
Proof.
  intros H. apply getApplication_inv in H as (db & -> & _ & E).
  rewrite updateApplicationStatus_on.
  destruct (hd_error (SQL.select_applications_by_id id db)); [discriminate | reflexivity].
Qed.

Lemma attachDocuments_missing this id now documents :
  getApplication id this = Returned None this ->
  attachDocuments now id documents this = Returned None this.
Proof.
  intros H. apply getApplication_inv in H as (db & -> & _ & E).
  rewrite attachDocuments_on.
  destruct (hd_error (SQL.select_applications_by_id id db)); [discriminate | reflexivity].
Qed.

(** A record that was read from the store has whole-second dates. *)
Lemma getApplication_asStored id this app this' :
  getApplication id this = Returned (Some app) this' -> asStored app = app.
Proof.
  intros H. apply getApplication_inv in H as (db & _ & _ & E).
  destruct (hd_error _) as [row|]; [|discriminate].
  cbn in E. injection E as ->. apply asStored_mapRow.
Qed.

(** A status update of any application keeps a review date that is set. *)
Lemma updateApplicationStatus_keeps_reviewDate this id app d u r this' :
  getApplication id this = Returned (Some app) this ->
  Application.reviewDate app = Some d ->
  runStatusUpdate u this = Returned r this' ->
  exists app', getApplication id this' = Returned (Some app') this' /\
               Application.reviewDate app' = Some d.
Proof.
  intros H Hd Hu. apply getApplication_inv in H as (db & -> & _ & E).
  unfold runStatusUpdate in Hu. rewrite updateApplicationStatus_on in Hu.
  destruct (SQL.select_applications_by_id id db) as [|row rest] eqn:S; [discriminate|].
  cbn in E. injection E as ->.
  destruct (hd_error (SQL.select_applications_by_id (su_id u) db)) as [row'|] eqn:S';
    inversion Hu; subst; clear Hu.
  - rewrite getApplication_on. unfold db_after_update.
    rewrite select_after_update_status.
    destruct (String.eqb_spec id (su_id u)) as [Eid|Nid].
    + rewrite <- Eid, S in S'. cbn in S'. injection S' as <-.
      rewrite S. cbn. eexists; split; [reflexivity|]. cbn.
      cbn in Hd. destruct (ApplicationRow.review_date row) as [x|]; [|discriminate].
      cbn in Hd |- *. injection Hd as <-. rewrite to_from_datetime. reflexivity.
    + rewrite S. cbn. eexists; split; [reflexivity | exact Hd].
  - rewrite getApplication_on, S. cbn. eexists; split; [reflexivity | exact Hd].
Qed.

Lemma runStatusUpdates_keep_reviewDate us :
  forall this id app d this',
  getApplication id this = Returned (Some app) this ->
  Application.reviewDate app = Some d ->
  runStatusUpdates us this = Returned tt this' ->
  exists app', getApplication id this' = Returned (Some app') this' /\
               Application.reviewDate app' = Some d.
Proof.
  induction us as [|u us IH]; intros this id app d this' H Hd Hr.
  - cbn in Hr. inversion Hr; subst. eauto.
  - cbn [runStatusUpdates] in Hr. unfold bind in Hr.
    destruct (runStatusUpdate u this) as [r this1|e this1] eqn:Hu; [|discriminate].
    destruct (updateApplicationStatus_keeps_reviewDate _ _ _ _ _ _ _ H Hd Hu)
      as (app1 & H1 & Hd1).
    exact (IH _ _ _ _ _ H1 Hd1 Hr).
Qed.

(** Status updates never throw on a store with a connection. *)
Lemma runStatusUpdates_total us :
  forall db, exists db', runStatusUpdates us (mkStorage (Some db))
                         = Returned tt (mkStorage (Some db')).
Proof.
  induction us as [|u us IH]; intros db.
  - exists db. reflexivity.
  - cbn [runStatusUpdates]. unfold bind, runStatusUpdate.
    rewrite updateApplicationStatus_on.
    destruct (hd_error _); apply IH.
Qed.

Lemma createApplication_on db uuid rnd now input :
  createApplication uuid rnd now input (mkStorage (Some db)) =
  match SQL.insert_application
          (insertedRow (createdApplication uuid rnd now input)) db with
  | Ok db' => Returned (createdApplication uuid rnd now input) (mkStorage (Some db'))
  | Err e => Thrown e (mkStorage (Some db))
  end.
Proof.
  unfold createApplication, bind, requireConnection, execute, ret.
  cbn [connection].
  change (ApplicationRow.mk _ _ _ _ _ _ _ _ _ _ _ _ _ _ _ _ _ _)
    with (insertedRow (createdApplication uuid rnd now input)).
  destruct (SQL.insert_application _ db); reflexivity.
Qed.

Lemma createAdmin_on db uuid now input :
  createAdmin uuid now input (mkStorage (Some db)) =
  match SQL.insert_admin
          (AdminRow.mk uuid (InsertAdmin.username input)
             (InsertAdmin.password input) (InsertAdmin.fullName input)
             (to_datetime now)) db with
  | Ok db' =>
      Returned (Admin.mk uuid (InsertAdmin.username input)
                  (InsertAdmin.password input) (InsertAdmin.fullName input) now)
               (mkStorage (Some db'))
  | Err e => Thrown e (mkStorage (Some db))
  end.
Proof.
  unfold createAdmin, bind, requireConnection, execute, ret.
  cbn [connection Admin.id Admin.username Admin.password Admin.fullName Admin.createdAt].
  destruct (SQL.insert_admin _ db); reflexivity.
Qed.

Lemma construct_on uuid now db :
  construct uuid now db =
  match SQL.select_admins_by_username "admin" db with
  | [] =>
      match SQL.insert_admin (defaultAdminRow uuid now) db with
      | Ok db' => Returned tt (mkStorage (Some db'))
      | Err e => Thrown e (mkStorage (Some db))
      end
  | _ :: _ => Returned tt (mkStorage (Some db))
  end.
Proof.
  unfold construct, initializeDatabase, createTables, createDefaultAdmin,
    bind, requireConnection, execute, query, ret.
  cbn [connection SQL.create_table_if_not_exists].
  destruct (SQL.select_admins_by_username "admin" db); cbn [List.length Nat.eqb].
  - fold (defaultAdminRow uuid now). cbn [connection].
    destruct (SQL.insert_admin _ db); reflexivity.
  - reflexivity.
Qed.

(** ** What reachable stores satisfy *)

Lemma insert_application_ok row db db' :
  SQL.insert_application row db = Ok db' ->
  db' = mkDatabase (applications db ++ [row]) (admins db) /\
  ~ In (ApplicationRow.id row) (map ApplicationRow.id (applications db)) /\
  ~ In (ApplicationRow.reference_number row)
       (map ApplicationRow.reference_number (applications db)).
Proof.
  unfold SQL.insert_application.
  destruct (SQL.too_long_application row); [discriminate|].
  destruct (existsb _ _) eqn:E1; [discriminate|].
  destruct (existsb _ (applications db)) eqn:E2 in |- *; [discriminate|].
  intros H; inversion H; subst. split; [reflexivity|]. split.
  - exact (existsb_eqb_false _ _ _ E1).
  - exact (existsb_eqb_false _ _ _ E2).
Qed.

Lemma insert_application_fits row db db' :
  SQL.insert_application row db = Ok db' -> SQL.too_long_application row = None.
Proof.
  unfold SQL.insert_application.
  destruct (SQL.too_long_application row); [discriminate | reflexivity].
Qed.

Lemma insert_admin_ok row db db' :
  SQL.insert_admin row db = Ok db' ->
  db' = mkDatabase (applications db) (admins db ++ [row]) /\
  ~ In (AdminRow.id row) (map AdminRow.id (admins db)) /\
  ~ In (AdminRow.username row) (map AdminRow.username (admins db)).
Proof.
  unfold SQL.insert_admin.
  destruct (SQL.too_long_admin row); [discriminate|].
  destruct (existsb _ _) eqn:E1; [discriminate|].
  destruct (existsb _ (admins db)) eqn:E2 in |- *; [discriminate|].
  intros H; inversion H; subst. split; [reflexivity|]. split.
  - exact (existsb_eqb_false _ _ _ E1).
  - exact (existsb_eqb_false _ _ _ E2).
Qed.

Lemma insert_admin_fits row db db' :
  SQL.insert_admin row db = Ok db' -> SQL.too_long_admin row = None.
Proof.
  unfold SQL.insert_admin.
  destruct (SQL.too_long_admin row); [discriminate | reflexivity].
Qed.

Lemma defaultAdminRow_fits uuid now :
  SQL.too_long_admin (defaultAdminRow uuid now) = None.
Proof. reflexivity. Qed.

Lemma invariant_empty : invariant emptyDatabase.
Proof.
  repeat split; cbn; try constructor; intros row [].
Qed.

Lemma invariant_insert_admin row db db' :
  invariant db -> SQL.insert_admin row db = Ok db' -> invariant db'.
Proof.
  intros ((I1 & I2 & I3 & I4) & C & R) H.
  apply insert_admin_ok in H as (-> & Hid & Hname).
  repeat split; cbn [applications admins]; try assumption.
  - rewrite map_app. apply NoDup_snoc; assumption.
  - rewrite map_app. apply NoDup_snoc; assumption.
Qed.

Lemma invariant_insert_application row db db' :
  invariant db ->
  (decided (ApplicationRow.status row) -> ApplicationRow.completed_date row <> None) ->
  matches_reference_pattern (ApplicationRow.reference_number row) = true ->
  SQL.insert_application row db = Ok db' -> invariant db'.
Proof.
  intros ((I1 & I2 & I3 & I4) & C & R) Hc Hm H.
  apply insert_application_ok in H as (-> & Hid & Href).
  repeat split; cbn [applications admins]; try assumption.
  - rewrite map_app. apply NoDup_snoc; assumption.
  - rewrite map_app. apply NoDup_snoc; assumption.
  - intros r I. apply in_app_iff in I as [I|[<-|[]]]; [apply C; assumption | exact Hc].
  - intros r I. apply in_app_iff in I as [I|[<-|[]]]; [apply R; assumption | exact Hm].
Qed.

Lemma invariant_update_status st rb an rs rd cd id db :
  invariant db ->
  (decided st -> cd <> None) ->
  invariant (SQL.update_status st rb an rs rd cd id db).
Proof.
  intros ((I1 & I2 & I3 & I4) & C & R) Hc.
  unfold SQL.update_status.
  repeat split; cbn [applications admins]; try assumption.
  - rewrite map_map. erewrite map_ext; [exact I1|].
    intros r. destruct (String.eqb _ _); reflexivity.
  - rewrite map_map. erewrite map_ext; [exact I2|].
    intros r. destruct (String.eqb _ _); reflexivity.
  - intros r I. apply in_map_iff in I as (r0 & <- & I0).
    destruct (String.eqb _ _); [cbn; intros D; exact (Hc D) | apply C; assumption].
  - intros r I. apply in_map_iff in I as (r0 & <- & I0).
    destruct (String.eqb _ _); [cbn|]; apply R; assumption.
Qed.

Lemma invariant_update_documents d u rd id db :
  invariant db -> invariant (SQL.update_documents d u rd id db).
Proof.
  intros ((I1 & I2 & I3 & I4) & C & R).
  unfold SQL.update_documents.
  repeat split; cbn [applications admins]; try assumption.
  - rewrite map_map. erewrite map_ext; [exact I1|].
    intros r. destruct (String.eqb _ _); reflexivity.
  - rewrite map_map. erewrite map_ext; [exact I2|].
    intros r. destruct (String.eqb _ _); reflexivity.
  - intros r I. apply in_map_iff in I as (r0 & <- & I0).
    destruct (String.eqb _ _); [cbn; intros [D|D]; discriminate | apply C; assumption].
  - intros r I. apply in_map_iff in I as (r0 & <- & I0).
    destruct (String.eqb _ _); [cbn|]; apply R; assumption.
Qed.

Lemma decided_completed now st (old : option Date) :
  decided st ->
  option_map to_datetime
    (if Status_eqb st approved || Status_eqb st rejected then Some now else old)
  <> None.
Proof. intros [-> | ->]; cbn; discriminate. Qed.

(** Each method that returns leaves a store with a connection whose tables
    satisfy [invariant], if they did before. *)
Lemma construct_invariant uuid now db this :
  invariant db -> construct uuid now db = Returned tt this ->
  exists db', this = mkStorage (Some db') /\ invariant db'.
Proof.
  intros I H. rewrite construct_on in H.
  destruct (SQL.select_admins_by_username "admin" db).
  - destruct (SQL.insert_admin _ db) as [db'|] eqn:E; inversion H; subst.
    exists db'. split; [reflexivity|]. exact (invariant_insert_admin _ _ _ I E).
  - inversion H; subst. eauto.
Qed.

Lemma createApplication_invariant uuid rnd now input db app this :
  invariant db -> Binary64.is_random rnd = true ->
  createApplication uuid rnd now input (mkStorage (Some db)) = Returned app this ->
  exists db', this = mkStorage (Some db') /\ invariant db'.
Proof.
  intros I Hr H. rewrite createApplication_on in H.
  destruct (SQL.insert_application _ db) as [db'|] eqn:E; inversion H; subst.
  exists db'. split; [reflexivity|].
  refine (invariant_insert_application _ _ _ I _ _ E).
  - cbn. intros [D|D]; discriminate.
  - cbn. apply makeReferenceNumber_matches. exact Hr.
Qed.

Lemma updateApplicationStatus_invariant now id st rb an rs db r this :
  invariant db ->
  updateApplicationStatus now id st rb an rs (mkStorage (Some db)) = Returned r this ->
  exists db', this = mkStorage (Some db') /\ invariant db'.
Proof.
  intros I H. rewrite updateApplicationStatus_on in H.
  destruct (hd_error _) as [row|]; inversion H; subst; [|eauto].
  eexists; split; [reflexivity|].
  apply invariant_update_status; [assumption|]. apply decided_completed.
Qed.

Lemma attachDocuments_invariant now id docs db r this :
  invariant db ->
  attachDocuments now id docs (mkStorage (Some db)) = Returned r this ->
  exists db', this = mkStorage (Some db') /\ invariant db'.
Proof.
  intros I H. rewrite attachDocuments_on in H.
  destruct (hd_error _) as [row|]; inversion H; subst; [|eauto].
  eexists; split; [reflexivity|].
  apply invariant_update_documents; assumption.
Qed.

Lemma createAdmin_invariant uuid now input db admin this :
  invariant db ->
  createAdmin uuid now input (mkStorage (Some db)) = Returned admin this ->
  exists db', this = mkStorage (Some db') /\ invariant db'.
Proof.
  intros I H. rewrite createAdmin_on in H.
  destruct (SQL.insert_admin _ db) as [db'|] eqn:E; inversion H; subst.
  exists db'. split; [reflexivity|]. exact (invariant_insert_admin _ _ _ I E).
Qed.

Lemma reachable_invariant this :
  reachable this -> exists db, this = mkStorage (Some db) /\ invariant db.
Proof.
  induction 1 as
    [uuid now this H
    |this uuid rnd now input app this' _ IH Hr H
    |this now id st rb an rs r this' _ IH H
    |this now id docs r this' _ IH H
    |this uuid now input admin this' _ IH H
    |this db uuid now this' _ IH Hc H].
  - exact (construct_invariant _ _ _ _ invariant_empty H).
  - destruct IH as (db & -> & I). exact (createApplication_invariant _ _ _ _ _ _ _ I Hr H).
  - destruct IH as (db & -> & I). exact (updateApplicationStatus_invariant _ _ _ _ _ _ _ _ _ I H).
  - destruct IH as (db & -> & I). exact (attachDocuments_invariant _ _ _ _ _ _ I H).
  - destruct IH as (db & -> & I). exact (createAdmin_invariant _ _ _ _ _ _ I H).
  - destruct IH as (db0 & -> & I). cbn in Hc. injection Hc as ->.
    exact (construct_invariant _ _ _ _ I H).
Qed.

(** ** The sample stores are reachable, and where three readings fail *)

Lemma sampleStore_reachable : reachable sampleStore.
Proof.
  eapply (reach_createApplication _ "a-1" 0 1000 sampleInput).
  - eapply (reach_construct "u-0" 1). vm_compute. reflexivity.
  - vm_compute. reflexivity.
  - vm_compute. reflexivity.
Qed.

Lemma busyStore_reachable : reachable busyStore.
Proof.
  eapply (reach_createAdmin _ "u-1" 6000 (InsertAdmin.mk "clerk" "s3cret" "Rates Clerk")).
  - eapply (reach_createApplication _ "a-3" (2 ^ 1073) 5000 thirdInput).
    + eapply (reach_createApplication _ "a-2" Binary64.max_random 9000 secondInput).
      * exact sampleStore_reachable.
      * vm_compute. reflexivity.
      * vm_compute. reflexivity.
    + vm_compute. reflexivity.
    + vm_compute. reflexivity.
  - vm_compute. reflexivity.
Qed.

Lemma decidedStore_reachable : reachable decidedStore.
Proof.
  eapply (reach_updateApplicationStatus sampleStore 2000 "a-1" approved
            (Some "clerk") None None).
  - exact sampleStore_reachable.
  - vm_compute. reflexivity.
Qed.

Lemma reopenedStore_reachable : reachable reopenedStore.
Proof.
  eapply (reach_updateApplicationStatus decidedStore 3000 "a-1" under_review
            None None None).
  - exact decidedStore_reachable.
  - vm_compute. reflexivity.
Qed.

(** C1, as stated, fails: after [approved] and then [under_review] the one
    application of [reopenedStore] has a [completedDate] and an undecided
    status. *)
Lemma completedDate_iff_decided_fails :
  updateApplicationStatus 2000 "a-1" approved (Some "clerk") None None sampleStore
  = Returned (option_map mapRowToApplication (hd_error (applications decidedDatabase)))
             decidedStore /\
  updateApplicationStatus 3000 "a-1" under_review None None None decidedStore
  = Returned (option_map mapRowToApplication (hd_error (applications reopenedDatabase)))
             reopenedStore /\
  reachable reopenedStore /\
  (exists row, In row (applications reopenedDatabase) /\
     ApplicationRow.completed_date row = Some (AtSecond 2) /\
     ApplicationRow.status row = under_review) /\
  ~ completedDate_iff_decided.
Proof.
  split; [vm_compute; reflexivity|]. split; [vm_compute; reflexivity|].
  split; [exact reopenedStore_reachable|].
  split.
  - eexists. split; [left; reflexivity|]. split; reflexivity.
  - intros H.
    specialize (H reopenedStore reopenedDatabase reopenedStore_reachable eq_refl).
    destruct (H _ (or_introl eq_refl)) as [D _].
    assert (C : Some (AtSecond 2) <> None) by discriminate.
    destruct (D C) as [E|E]; discriminate E.
Qed.

(** C2, as stated, fails: the application of [sampleStore] has documents
    [deed.pdf] and uploaded documents [id.pdf]; attaching [doc1] leaves
    uploaded documents [deed.pdf; doc1], not [id.pdf; doc1]. *)
Lemma attach_extends_both_sequences_fails :
  reachable sampleStore /\
  (exists app app' this',
     getApplication "a-1" sampleStore = Returned (Some app) sampleStore /\
     Application.documents app = ["deed.pdf"] /\
     Application.uploadedDocuments app = ["id.pdf"] /\
     attachDocuments 2000 "a-1" ["doc1"] sampleStore = Returned (Some app') this' /\
     Application.uploadedDocuments app' = ["deed.pdf"; "doc1"]) /\
  ~ attach_extends_both_sequences.
Proof.
  split; [exact sampleStore_reachable|]. split.
  - do 3 eexists. split; [vm_compute; reflexivity|].
    split; [reflexivity|]. split; [reflexivity|].
    split; [vm_compute; reflexivity | reflexivity].
  - intros H.
    destruct (H sampleStore "a-1" _ 2000 ["doc1"] _ _ sampleStore_reachable
                eq_refl eq_refl) as (_ & U & _).
    discriminate U.
Qed.


(** ** Completion dates *)

Lemma completed_if_decided_update_status st rb an rs rd cd id db :
  completed_if_decided db -> (decided st -> cd <> None) ->
  completed_if_decided (SQL.update_status st rb an rs rd cd id db).
Proof.
  intros C Hc r I. cbn in I. apply in_map_iff in I as (r0 & <- & I0).
  destruct (String.eqb _ _); [cbn; exact Hc | apply C; assumption].
Qed.

Lemma completed_if_decided_update_documents d u rd id db :
  completed_if_decided db ->
  completed_if_decided (SQL.update_documents d u rd id db).
Proof.
  intros C r I. cbn in I. apply in_map_iff in I as (r0 & <- & I0).
  destruct (String.eqb _ _); [cbn; intros [D|D]; discriminate | apply C; assumption].
Qed.

Lemma completed_if_decided_insert row db db' :
  completed_if_decided db ->
  (decided (ApplicationRow.status row) -> ApplicationRow.completed_date row <> None) ->
  SQL.insert_application row db = Ok db' ->
  completed_if_decided db'.
Proof.
  intros C Hc H. apply insert_application_ok in H as (-> & _).
  intros r I. cbn in I. apply in_app_iff in I as [I|[<-|[]]]; [apply C; assumption | exact Hc].
Qed.

(** C1 (amended).  In every reachable store an application whose status is
    approved or rejected has a non-null [completedDate], and
    [createApplication], [updateApplicationStatus] and [attachDocuments] each
    preserve this.  (The converse does not hold: a later update or attachment
    moves the status away and keeps the date.) *)
Theorem completedDate_present_when_decided :
  (forall this db, reachable this -> connection this = Some db ->
     completed_if_decided db) /\
  (forall this db, connection this = Some db -> completed_if_decided db ->
     (forall uuid rnd now input app this',
        createApplication uuid rnd now input this = Returned app this' ->
        exists db', connection this' = Some db' /\ completed_if_decided db') /\
     (forall now id status reviewedBy adminNotes reason r this',
        updateApplicationStatus now id status reviewedBy adminNotes reason this
          = Returned r this' ->
        exists db', connection this' = Some db' /\ completed_if_decided db') /\
     (forall now id documents r this',
        attachDocuments now id documents this = Returned r this' ->
        exists db', connection this' = Some db' /\ completed_if_decided db')).
Proof.
  split.
  - intros this db R Hc. destruct (reachable_invariant this R) as (db0 & -> & I).
    cbn in Hc. injection Hc as <-. apply I.
  - intros this db Hc C. apply storage_eta in Hc as ->. repeat split.
    + intros uuid rnd now input app this' H. rewrite createApplication_on in H.
      destruct (SQL.insert_application _ db) as [db'|] eqn:E; inversion H; subst.
      exists db'. split; [reflexivity|].
      refine (completed_if_decided_insert _ _ _ C _ E).
      cbn. intros [D|D]; discriminate.
    + intros now id st rb an rs r this' H. rewrite updateApplicationStatus_on in H.
      destruct (hd_error _) as [row|]; inversion H; subst;
        [|exists db; split; [reflexivity | assumption]].
      eexists; split; [reflexivity|].
      apply completed_if_decided_update_status; [assumption | apply decided_completed].
    + intros now id docs r this' H. rewrite attachDocuments_on in H.
      destruct (hd_error _) as [row|]; inversion H; subst;
        [|exists db; split; [reflexivity | assumption]].
      eexists; split; [reflexivity|].
      apply completed_if_decided_update_documents; assumption.
Qed.

Lemma completedDate_present_when_decided_witness :
  completed_if_decided decidedDatabase.
Proof.
  apply (proj1 completedDate_present_when_decided decidedStore decidedDatabase).
  - exact decidedStore_reachable.
  - reflexivity.
Defined.

(** C2 (amended).  For an application present in the store,
    [attachDocuments] appends the given documents, in order, to [documents] and
    sets [uploadedDocuments] to that same new sequence (which extends the old
    [uploadedDocuments] when that equalled [documents]); it forces the status
    to [under_review], sets [reviewDate] to the time of the call whatever it
    was, and a read-back returns the same record with its dates in whole
    seconds, as the columns hold them.  A second call appends
    again: after [doc1] then [doc2] an application that had no documents has
    exactly [doc1; doc2], and the status is [under_review] after each call. *)
Theorem attachDocuments_appends :
  forall this id app now documents,
    getApplication id this = Returned (Some app) this ->
    exists app' this',
      attachDocuments now id documents this = Returned (Some app') this' /\
      getApplication id this' = Returned (Some (asStored app')) this' /\
      Application.documents app' = (Application.documents app ++ documents)%list /\
      Application.uploadedDocuments app' = (Application.documents app ++ documents)%list /\
      (Application.uploadedDocuments app = Application.documents app ->
       Application.uploadedDocuments app'
       = (Application.uploadedDocuments app ++ documents)%list) /\
      Application.status app' = under_review /\
      Application.reviewDate app' = Some now /\
      forall now2 documents2,
      exists app'' this'',
        attachDocuments now2 id documents2 this' = Returned (Some app'') this'' /\
        getApplication id this'' = Returned (Some (asStored app'')) this'' /\
        Application.documents app''
        = (Application.documents app ++ documents ++ documents2)%list /\
        Application.status app'' = under_review /\
        (Application.documents app = [] -> documents = ["doc1"] ->
         documents2 = ["doc2"] ->
         Application.documents app'' = ["doc1"; "doc2"]).
Proof.
  intros this id app now docs H.
  destruct (attachDocuments_present this id app now docs H) as (this' & Ha & Hg).
  exists (attachedApplication now docs app), this'.
  repeat (split; [first [assumption | reflexivity]|]).
  split; [intros ->; reflexivity|].
  repeat (split; [first [assumption | reflexivity]|]).
  intros now2 docs2.
  destruct (attachDocuments_present this' id _ now2 docs2 Hg) as (this'' & Ha2 & Hg2).
  exists (attachedApplication now2 docs2
            (asStored (attachedApplication now docs app))), this''.
  repeat (split; [first [assumption | reflexivity]|]).
  split; [cbn; unfold or_val; cbn; rewrite <- app_assoc; reflexivity|].
  split; [reflexivity|].
  intros E -> ->. cbn. unfold or_val; cbn. rewrite E. reflexivity.
Qed.

Lemma attachDocuments_appends_witness :
  exists app' this',
    attachDocuments 2000 "a-1" ["doc1"] sampleStore = Returned (Some app') this' /\
    Application.documents app' = ["deed.pdf"; "doc1"] /\
    Application.uploadedDocuments app' = ["deed.pdf"; "doc1"].
Proof.
  destruct (attachDocuments_appends sampleStore "a-1" _ 2000 ["doc1"] eq_refl)
    as (app' & this' & Ha & _ & Hd & Hu & _).
  exists app', this'. repeat split; assumption.
Defined.

Lemma decided_iff st :
  decided st <-> Status_eqb st approved || Status_eqb st rejected = true.
Proof.
  unfold decided. destruct st; cbn; split; intros H;
    try discriminate; try (destruct H; discriminate); auto.
Qed.

(** C5, as stated, fails: the application of [sampleStore] has no review
    date; a first update at 2789 returns [reviewDate = 2789], the column
    stores second 3, and a second update returns [reviewDate = 3000]. *)
Lemma reviewDate_same_in_successive_updates_fails :
  reachable sampleStore /\
  (exists app1 this1 app2 this2,
     updateApplicationStatus 2789 "a-1" under_review None None None sampleStore
     = Returned (Some app1) this1 /\
     updateApplicationStatus 5000 "a-1" approved None None None this1
     = Returned (Some app2) this2 /\
     Application.reviewDate app1 = Some 2789 /\
     Application.reviewDate app2 = Some 3000) /\
  ~ reviewDate_same_in_successive_updates.
Proof.
  split; [exact sampleStore_reachable|]. split.
  - do 4 eexists. split; [vm_compute; reflexivity|].
    split; [vm_compute; reflexivity|]. split; reflexivity.
  - intros H.
    specialize (H sampleStore "a-1" _ 2789 under_review None None None
                  5000 approved None None None _ _ _ _
                  sampleStore_reachable eq_refl eq_refl eq_refl).
    discriminate H.
Qed.



(** C4.  In every reachable store the reference numbers are pairwise distinct
    and each matches [RCC-2025-\d{6}]; the record [createApplication] returns
    has a reference number of that form which no earlier row carries, and the
    table stays duplicate-free with its row added. *)
Theorem referenceNumber_well_formed_and_unique :
  forall this db,
    reachable this -> connection this = Some db ->
    NoDup (map ApplicationRow.reference_number (applications db)) /\
    references_well_formed db /\
    forall uuid rnd now input app this',
      Binary64.is_random rnd = true ->
      createApplication uuid rnd now input this = Returned app this' ->
      matches_reference_pattern (Application.referenceNumber app) = true /\
      ~ In (Application.referenceNumber app)
           (map ApplicationRow.reference_number (applications db)) /\
      exists db',
        connection this' = Some db' /\
        applications db' = (applications db ++ [insertedRow app])%list /\
        NoDup (map ApplicationRow.reference_number (applications db')).
Proof.
  intros this db R Hc.
  destruct (reachable_invariant this R) as (db0 & -> & I).
  cbn in Hc. injection Hc as <-.
  destruct I as ((I1 & I2 & I3 & I4) & C & W).
  split; [exact I2|]. split; [exact W|].
  intros uuid rnd now input app this' Hr H.
  rewrite createApplication_on in H.
  destruct (SQL.insert_application _ db0) as [db'|] eqn:E; inversion H; subst.
  apply insert_application_ok in E as (-> & Hid & Href).
  split; [apply makeReferenceNumber_matches; exact Hr|].
  split; [exact Href|].
  eexists. split; [reflexivity|]. split; [reflexivity|].
  cbn [applications]. rewrite map_app. apply NoDup_snoc; assumption.
Qed.

Lemma referenceNumber_well_formed_and_unique_witness :
  NoDup (map ApplicationRow.reference_number (applications sampleDatabase)) /\
  references_well_formed sampleDatabase.
Proof.
  destruct (referenceNumber_well_formed_and_unique sampleStore sampleDatabase
              sampleStore_reachable eq_refl) as (N & W & _).
  split; assumption.
Defined.

Lemma rows_after_update_status st rb an rs rd cd id db row :
  In row (applications (SQL.update_status st rb an rs rd cd id db)) ->
  ApplicationRow.id row = id ->
  ApplicationRow.status row = st /\
  ApplicationRow.reviewed_by row = rb /\
  ApplicationRow.admin_notes row = an /\
  ApplicationRow.reason row = rs /\
  ApplicationRow.review_date row = rd /\
  ApplicationRow.completed_date row = cd.
Proof.
  cbn. intros I E. apply in_map_iff in I as (r0 & <- & _).
  destruct (String.eqb_spec (ApplicationRow.id r0) id) as [_|N].
  - cbn. repeat split.
  - contradiction.
Qed.



(** C7.  The record [createApplication] returns has status [submitted], null
    [reviewDate], [completedDate], [adminNotes] and [reviewedBy],
    [submittedDate] the creation time, and [documents] and
    [uploadedDocuments] those of the input, or empty when absent.  The call
    does return when the values fit the TEXT columns and the generated id and
    reference number are new. *)
Theorem createApplication_initial_record :
  forall this uuid rnd now input,
    (forall app this',
       createApplication uuid rnd now input this = Returned app this' ->
       Application.status app = submitted /\
       Application.reviewDate app = None /\
       Application.completedDate app = None /\
       Application.adminNotes app = None /\
       Application.reviewedBy app = None /\
       Application.submittedDate app = now /\
       Application.documents app
       = match InsertApplication.documents input with Some l => l | None => [] end /\
       Application.uploadedDocuments app
       = match InsertApplication.uploadedDocuments input with
         | Some l => l | None => [] end) /\
    (forall db,
       connection this = Some db ->
       ~ In uuid (map ApplicationRow.id (applications db)) ->
       ~ In (makeReferenceNumber rnd)
            (map ApplicationRow.reference_number (applications db)) ->
       SQL.too_long_application
         (insertedRow (createdApplication uuid rnd now input)) = None ->
       exists app this',
         createApplication uuid rnd now input this = Returned app this').
Proof.
  intros this uuid rnd now input. split.
  - intros app this' H. destruct this as [[db|]]; [|discriminate H].
    rewrite createApplication_on in H.
    destruct (SQL.insert_application _ db); inversion H; subst.
    cbn. unfold or_else.
    destruct (InsertApplication.documents input),
             (InsertApplication.uploadedDocuments input); repeat split.
  - intros db Hc Hid Href Hfit. apply storage_eta in Hc as ->.
    rewrite createApplication_on. unfold SQL.insert_application. rewrite Hfit.
    cbn [insertedRow createdApplication ApplicationRow.id
         ApplicationRow.reference_number Application.id Application.referenceNumber].
    destruct (existsb _ _) eqn:E1.
    { exfalso. apply Hid. exact (existsb_eqb_true _ _ _ E1). }
    destruct (existsb _ (applications db)) eqn:E2 in |- *.
    { exfalso. apply Href. exact (existsb_eqb_true _ _ _ E2). }
    eauto.
Qed.

Lemma createApplication_initial_record_witness :
  exists app this',
    createApplication "a-2" 0 4000
      (InsertApplication.mk "John Moyo" "12-345678B12" "0712345678" None
         "3 Main Street" "88" "commercial" "transfer" None None)
      (mkStorage (Some emptyDatabase)) = Returned app this' /\
    Application.status app = submitted /\
    Application.documents app = [] /\
    Application.uploadedDocuments app = [].
Proof.
  pose proof (createApplication_initial_record (mkStorage (Some emptyDatabase))
                "a-2" 0 4000
                (InsertApplication.mk "John Moyo" "12-345678B12" "0712345678" None
                   "3 Main Street" "88" "commercial" "transfer" None None))
    as [Hprops Hreturns].
  destruct (Hreturns emptyDatabase eq_refl) as (app & this' & H).
  - cbn. tauto.
  - cbn. tauto.
  - reflexivity.
  - exists app, this'. split; [exact H|].
    destruct (Hprops app this' H) as (Hs & _ & _ & _ & _ & _ & Hd & Hu).
    repeat split; assumption.
Defined.

(** C8.  On a store with a connection, for an id that no row carries,
    [getApplication] returns the not-found value and does not throw, and
    [updateApplicationStatus] and [attachDocuments] return it too and leave
    the store as it was. *)
Theorem missing_application_is_not_an_error :
  forall this db id,
    connection this = Some db ->
    absent id db ->
    getApplication id this = Returned None this /\
    (forall now status reviewedBy adminNotes reason,
       updateApplicationStatus now id status reviewedBy adminNotes reason this
       = Returned None this) /\
    (forall now documents,
       attachDocuments now id documents this = Returned None this).
Proof.
  intros this db id Hc Ha. apply storage_eta in Hc as ->.
  assert (G : getApplication id (mkStorage (Some db))
              = Returned None (mkStorage (Some db))).
  { rewrite getApplication_on, (filter_none_of_absent id db Ha). reflexivity. }
  split; [exact G|]. split.
  - intros. apply updateApplicationStatus_missing. exact G.
  - intros. apply attachDocuments_missing. exact G.
Qed.

Lemma missing_application_is_not_an_error_witness :
  getApplication "a-9" sampleStore = Returned None sampleStore /\
  updateApplicationStatus 2000 "a-9" approved None None None sampleStore
  = Returned None sampleStore /\
  attachDocuments 2000 "a-9" ["doc1"] sampleStore = Returned None sampleStore.
Proof.
  destruct (missing_application_is_not_an_error sampleStore sampleDatabase "a-9")
    as (G & U & A).
  - reflexivity.
  - intros row [<-|[]]. cbn. discriminate.
  - split; [exact G|]. split; [apply U | apply A].
Defined.

(** C10.  After every [attachDocuments] that returns a record, that record's
    [uploadedDocuments] equals its [documents]: both are the documents loaded
    before the call with the given ones appended, whatever
    [uploadedDocuments] held, and a read-back returns the same record with
    its dates in whole seconds. *)
Theorem attachDocuments_uploadedDocuments_mirror_documents :
  forall this now id documents app' this',
    attachDocuments now id documents this = Returned (Some app') this' ->
    Application.uploadedDocuments app' = Application.documents app' /\
    getApplication id this' = Returned (Some (asStored app')) this' /\
    exists app,
      getApplication id this = Returned (Some app) this /\
      Application.documents app' = (Application.documents app ++ documents)%list /\
      Application.uploadedDocuments app' = (Application.documents app ++ documents)%list.
Proof.
  intros this now id docs app' this' H.
  destruct this as [[db|]]; [|discriminate H].
  destruct (hd_error (SQL.select_applications_by_id id db)) as [row|] eqn:S.
  - assert (G : getApplication id (mkStorage (Some db))
                = Returned (Some (mapRowToApplication row)) (mkStorage (Some db))).
    { rewrite getApplication_on, S. reflexivity. }
    destruct (attachDocuments_present _ _ _ now docs G) as (this1 & Ha & Hg).
    rewrite Ha in H. injection H as <- <-.
    split; [reflexivity|]. split; [exact Hg|].
    eexists. split; [exact G|]. split; reflexivity.
  - rewrite attachDocuments_on, S in H. discriminate H.
Qed.

Lemma attachDocuments_uploadedDocuments_mirror_documents_witness :
  exists app' this',
    attachDocuments 2000 "a-1" ["doc1"] sampleStore = Returned (Some app') this' /\
    Application.uploadedDocuments app' = Application.documents app'.
Proof.
  eexists; eexists. split; [vm_compute; reflexivity|].
  refine (proj1 (attachDocuments_uploadedDocuments_mirror_documents
                   sampleStore 2000 "a-1" ["doc1"] _ _ _)).
  vm_compute. reflexivity.
Defined.

(** ** Seeding the default admin *)

Lemma construct_seeded uuid now db :
  SQL.select_admins_by_username "admin" db <> [] ->
  construct uuid now db = Returned tt (mkStorage (Some db)).
Proof.
  intros H. rewrite construct_on.
  destruct (SQL.select_admins_by_username "admin" db); [contradiction | reflexivity].
Qed.

Lemma construct_seeds uuid now db this :
  construct uuid now db = Returned tt this ->
  exists db', this = mkStorage (Some db') /\
    SQL.select_admins_by_username "admin" db' <> [] /\
    (NoDup (map AdminRow.username (admins db)) ->
     NoDup (map AdminRow.username (admins db'))).
Proof.
  intros H. rewrite construct_on in H.
  destruct (SQL.select_admins_by_username "admin" db) as [|r rs] eqn:S.
  - destruct (SQL.insert_admin _ db) as [db'|] eqn:E; inversion H; subst.
    apply insert_admin_ok in E as (-> & _ & Hname).
    eexists. split; [reflexivity|]. split.
    + unfold SQL.select_admins_by_username in *. cbn [admins].
      rewrite filter_app, S. cbn. discriminate.
    + intros N. cbn [admins]. rewrite map_app. apply NoDup_snoc; assumption.
  - inversion H; subst. exists db. split; [reflexivity|].
    split; [rewrite S; discriminate | auto].
Qed.

Lemma construct_fresh uuid now :
  exists db', construct uuid now emptyDatabase = Returned tt (mkStorage (Some db')).
Proof. eexists. rewrite construct_on. reflexivity. Qed.

Lemma initializations_seeded envs db :
  SQL.select_admins_by_username "admin" db <> [] ->
  initializations envs db = Some db.
Proof.
  intros H. induction envs as [|[uuid now] envs IH]; cbn [initializations].
  - reflexivity.
  - rewrite (construct_seeded uuid now db H). exact IH.
Qed.

(** C9.  After one or more consecutive initializations over a fresh database
    there is exactly one admin row with username [admin]; the same holds over
    any database with unique usernames on which they succeed; and an
    initialization over a database that already has that admin returns with
    the database unchanged. *)
Theorem default_admin_seeded_once :
  forall env envs,
    (exists db, initializations (env :: envs) emptyDatabase = Some db /\
                count_admins "admin" db = 1%nat) /\
    (forall db0 db,
       NoDup (map AdminRow.username (admins db0)) ->
       initializations (env :: envs) db0 = Some db ->
       count_admins "admin" db = 1%nat /\
       forall uuid now, construct uuid now db = Returned tt (mkStorage (Some db))) /\
    (forall db uuid now,
       count_admins "admin" db <> 0%nat ->
       construct uuid now db = Returned tt (mkStorage (Some db))).
Proof.
  intros [uuid now] envs.
  assert (General : forall db0 db,
    NoDup (map AdminRow.username (admins db0)) ->
    initializations ((uuid, now) :: envs) db0 = Some db ->
    count_admins "admin" db = 1%nat /\
    forall uuid' now', construct uuid' now' db = Returned tt (mkStorage (Some db))).
  { intros db0 db N H. cbn [initializations] in H.
    destruct (construct uuid now db0) as [[] this|e this] eqn:C; [|discriminate].
    destruct (construct_seeds _ _ _ _ C) as (db1 & -> & S1 & N1).
    cbn [connection] in H. rewrite (initializations_seeded envs db1 S1) in H.
    injection H as <-. split.
    - unfold count_admins.
      pose proof (filter_unique_key AdminRow.username "admin" (admins db1) (N1 N)) as U.
      fold (SQL.select_admins_by_username "admin" db1) in U.
      destruct (SQL.select_admins_by_username "admin" db1); [contradiction|].
      cbn in *. lia.
    - intros. apply construct_seeded. exact S1. }
  split; [|split].
  - destruct (construct_fresh uuid now) as (db1 & C).
    destruct (construct_seeds _ _ _ _ C) as (db1' & E & S1 & _).
    injection E as <-.
    exists db1. assert (I : initializations ((uuid, now) :: envs) emptyDatabase = Some db1).
    { cbn [initializations]. rewrite C. cbn [connection].
      apply initializations_seeded. exact S1. }
    split; [exact I|]. apply (General emptyDatabase db1); [constructor | exact I].
  - exact General.
  - intros db uuid' now' H. apply construct_seeded.
    unfold count_admins in H. destruct (SQL.select_admins_by_username "admin" db);
      [contradiction | discriminate].
Qed.

Lemma default_admin_seeded_once_witness :
  count_admins "admin"
    (mkDatabase []
       [AdminRow.mk "u-0" "admin" "admin123" "System Administrator" (AtSecond 0)])
  = 1%nat.
Proof.
  apply (proj1 (proj2 (default_admin_seeded_once ("u-0", 1) [("u-1", 2); ("u-2", 3)]))
           emptyDatabase).
  - constructor.
  - reflexivity.
Defined.

(** * Further properties of the store *)

(** ** Insert and look up *)

Lemma filter_key_absent {A} (key : A -> string) (k : string) (l : list A) :
  ~ In k (map key l) -> filter (fun r => String.eqb (key r) k) l = [].
Proof.
  induction l as [|x l IH]; cbn; intros H; [reflexivity|].
  destruct (String.eqb_spec (key x) k) as [E|_].
  - exfalso. apply H. left. exact E.
  - apply IH. intros I. apply H. right. exact I.
Qed.

Lemma mapRow_insertedRow app :
  mapRowToApplication (insertedRow app) = asStored app.
Proof.
  destruct app. unfold asStored, mapRowToApplication, insertedRow. cbn.
  rewrite !option_map_DATETIME. reflexivity.
Qed.

Lemma asStored_createdApplication uuid rnd now input :
  now mod 1000 = 0 ->
  asStored (createdApplication uuid rnd now input)
  = createdApplication uuid rnd now input.
Proof.
  intros W. unfold asStored, createdApplication. cbn.
  rewrite (DATETIME_whole_second now W). reflexivity.
Qed.

Lemma createApplication_inv uuid rnd now input this app this' :
  createApplication uuid rnd now input this = Returned app this' ->
  exists db,
    this = mkStorage (Some db) /\
    app = createdApplication uuid rnd now input /\
    this' = mkStorage (Some (mkDatabase (applications db ++ [insertedRow app])
                                         (admins db))) /\
    ~ In uuid (map ApplicationRow.id (applications db)) /\
    ~ In (makeReferenceNumber rnd)
         (map ApplicationRow.reference_number (applications db)).
Proof.
  intros H. destruct this as [[db|]]; [|discriminate H].
  rewrite createApplication_on in H.
  destruct (SQL.insert_application _ db) as [db'|] eqn:E; inversion H; subst.
  apply insert_application_ok in E as (-> & Hid & Href).
  exists db. repeat split; assumption.
Qed.







(** ** Without a connection *)

(** X4.  Before a connection is established every method throws
    'Database connection not established' and leaves the store as it was; an
    initialization whose connection attempt fails throws and connects
    nothing. *)
Theorem methods_throw_without_connection :
  (forall uuid rnd now input,
     createApplication uuid rnd now input unconnected
     = Thrown ConnectionNotEstablished unconnected) /\
  (forall id,
     getApplication id unconnected = Thrown ConnectionNotEstablished unconnected) /\
  (forall ref,
     getApplicationByReference ref unconnected
     = Thrown ConnectionNotEstablished unconnected) /\
  getAllApplications unconnected = Thrown ConnectionNotEstablished unconnected /\
  (forall now id status reviewedBy adminNotes reason,
     updateApplicationStatus now id status reviewedBy adminNotes reason unconnected
     = Thrown ConnectionNotEstablished unconnected) /\
  (forall now id documents,
     attachDocuments now id documents unconnected
     = Thrown ConnectionNotEstablished unconnected) /\
  (forall id, getAdmin id unconnected = Thrown ConnectionNotEstablished unconnected) /\
  (forall username,
     getAdminByUsername username unconnected
     = Thrown ConnectionNotEstablished unconnected) /\
  (forall uuid now input,
     createAdmin uuid now input unconnected
     = Thrown ConnectionNotEstablished unconnected) /\
  createTables unconnected = Thrown ConnectionNotEstablished unconnected /\
  (forall uuid now,
     createDefaultAdmin uuid now unconnected
     = Thrown ConnectionNotEstablished unconnected) /\
  (forall uuid now this,
     initializeDatabase None uuid now this = Thrown ConnectionFailed this).
Proof. repeat split. Qed.

(** ** Administrators *)

Lemma getAdminByUsername_on db username :
  getAdminByUsername username (mkStorage (Some db)) =
  Returned (option_map mapRowToAdmin
              (hd_error (SQL.select_admins_by_username username db)))
           (mkStorage (Some db)).
Proof.
  unfold getAdminByUsername, bind, requireConnection, query, ret; cbn.
  destruct (SQL.select_admins_by_username username db); reflexivity.
Qed.

Lemma getAdmin_on db id :
  getAdmin id (mkStorage (Some db)) =
  Returned (option_map mapRowToAdmin (hd_error (SQL.select_admins_by_id id db)))
           (mkStorage (Some db)).
Proof.
  unfold getAdmin, bind, requireConnection, query, ret; cbn.
  destruct (SQL.select_admins_by_id id db); reflexivity.
Qed.

Lemma createAdmin_inv uuid now input this admin this' :
  createAdmin uuid now input this = Returned admin this' ->
  exists db,
    this = mkStorage (Some db) /\
    admin = Admin.mk uuid (InsertAdmin.username input) (InsertAdmin.password input)
              (InsertAdmin.fullName input) now /\
    this' = mkStorage (Some (mkDatabase (applications db)
              (admins db ++ [AdminRow.mk uuid (InsertAdmin.username input)
                               (InsertAdmin.password input)
                               (InsertAdmin.fullName input)
                               (to_datetime now)]))) /\
    ~ In uuid (map AdminRow.id (admins db)) /\
    ~ In (InsertAdmin.username input) (map AdminRow.username (admins db)).
Proof.
  intros H. destruct this as [[db|]]; [|discriminate H].
  rewrite createAdmin_on in H.
  destruct (SQL.insert_admin _ db) as [db'|] eqn:E; inversion H; subst.
  apply insert_admin_ok in E as (-> & Hid & Hname).
  exists db. repeat split; assumption.
Qed.





(** X7.  After an initialization that returns, [getAdminByUsername "admin"]
    finds an admin of that username: the one that was there before, left
    untouched, or else the default one with the generated id, password
    [admin123] and name [System Administrator], created at the whole second
    nearest to the time of the initialization. *)
Theorem initialization_provides_default_admin :
  forall uuid now db this,
    construct uuid now db = Returned tt this ->
    (exists admin,
       getAdminByUsername "admin" this = Returned (Some admin) this /\
       Admin.username admin = "admin") /\
    (forall existing,
       getAdminByUsername "admin" (mkStorage (Some db))
       = Returned (Some existing) (mkStorage (Some db)) ->
       getAdminByUsername "admin" this = Returned (Some existing) this) /\
    (getAdminByUsername "admin" (mkStorage (Some db))
     = Returned None (mkStorage (Some db)) ->
     getAdminByUsername "admin" this
     = Returned
         (Some (Admin.mk uuid "admin" "admin123" "System Administrator"
                  (DATETIME now)))
         this).
Proof.
  intros uuid now db this H. rewrite construct_on in H.
  rewrite !getAdminByUsername_on.
  destruct (SQL.select_admins_by_username "admin" db) as [|r rs] eqn:S.
  - destruct (SQL.insert_admin _ db) as [db'|] eqn:E; inversion H; subst.
    apply insert_admin_ok in E as (-> & _ & _).
    assert (G : getAdminByUsername "admin"
                  (mkStorage (Some (mkDatabase (applications db)
                     (admins db ++ [defaultAdminRow uuid now]))))
                = Returned
                    (Some (Admin.mk uuid "admin" "admin123" "System Administrator"
                             (DATETIME now)))
                    (mkStorage (Some (mkDatabase (applications db)
                       (admins db ++ [defaultAdminRow uuid now]))))).
    { rewrite getAdminByUsername_on. unfold SQL.select_admins_by_username in *.
      cbn [admins]. rewrite filter_app, S. reflexivity. }
    split; [eexists; split; [exact G | reflexivity]|].
    split; [discriminate | intros _; exact G].
  - inversion H; subst. rewrite getAdminByUsername_on, S. cbn.
    split.
    + eexists. split; [reflexivity|]. cbn.
      assert (I : In r (SQL.select_admins_by_username "admin" db))
        by (rewrite S; left; reflexivity).
      apply filter_In in I as [_ I]. apply String.eqb_eq in I. exact I.
    + split; [auto | discriminate].
Qed.

Lemma initialization_provides_default_admin_witness :
  getAdminByUsername "admin"
    (mkStorage (Some (mkDatabase []
       [AdminRow.mk "u-0" "admin" "admin123" "System Administrator" (AtSecond 2)])))
  = Returned (Some (Admin.mk "u-0" "admin" "admin123" "System Administrator" 2000))
      (mkStorage (Some (mkDatabase []
         [AdminRow.mk "u-0" "admin" "admin123" "System Administrator"
            (AtSecond 2)]))).
Proof.
  apply (proj2 (proj2 (initialization_provides_default_admin "u-0" 1789
                         emptyDatabase _ eq_refl))).
  reflexivity.
Defined.

(** X18.  On a store with a connection, [getApplicationByReference],
    [getAdmin] and [getAdminByUsername] return the not-found value, without
    throwing and without changing the store, for a key no row carries. *)
Theorem unknown_keys_are_not_found :
  forall this db,
    connection this = Some db ->
    (forall ref,
       ~ In ref (map ApplicationRow.reference_number (applications db)) ->
       getApplicationByReference ref this = Returned None this) /\
    (forall id,
       ~ In id (map AdminRow.id (admins db)) ->
       getAdmin id this = Returned None this) /\
    (forall username,
       ~ In username (map AdminRow.username (admins db)) ->
       getAdminByUsername username this = Returned None this).
Proof.
  intros this db Hc. apply storage_eta in Hc as ->. repeat split.
  - intros ref H.
    unfold getApplicationByReference, bind, requireConnection, query, ret.
    cbn [connection]. unfold SQL.select_applications_by_reference.
    rewrite (filter_key_absent ApplicationRow.reference_number _ _ H). reflexivity.
  - intros id H. rewrite getAdmin_on. unfold SQL.select_admins_by_id.
    rewrite (filter_key_absent AdminRow.id _ _ H). reflexivity.
  - intros username H. rewrite getAdminByUsername_on.
    unfold SQL.select_admins_by_username.
    rewrite (filter_key_absent AdminRow.username _ _ H). reflexivity.
Qed.

Lemma unknown_keys_are_not_found_witness :
  getApplicationByReference "RCC-2025-999999" sampleStore = Returned None sampleStore /\
  getAdmin "u-9" sampleStore = Returned None sampleStore /\
  getAdminByUsername "root" sampleStore = Returned None sampleStore.
Proof.
  destruct (unknown_keys_are_not_found sampleStore sampleDatabase eq_refl)
    as (R & I & U).
  split; [apply R|split; [apply I | apply U]];
    cbn; intros [E|[]]; discriminate E.
Defined.

(** ** Listing *)

Lemma insert_by_submitted_date_perm r l :
  Permutation (r :: l) (insert_by_submitted_date r l).
Proof.
  induction l as [|x l IH]; cbn; [reflexivity|].
  destruct (_ <=? _); [reflexivity|].
  rewrite perm_swap. constructor. exact IH.
Qed.

Lemma select_applications_newest_first_perm db :
  Permutation (applications db) (select_applications_newest_first db).
Proof.
  unfold select_applications_newest_first.
  induction (applications db) as [|r l IH]; cbn; [constructor|].
  rewrite <- insert_by_submitted_date_perm. constructor. exact IH.
Qed.

Lemma insert_by_submitted_date_sorted r l :
  rows_newest_first l -> rows_newest_first (insert_by_submitted_date r l).
Proof.
  unfold rows_newest_first.
  induction l as [|x l IH]; intros S; cbn.
  - constructor; constructor.
  - apply StronglySorted_inv in S as [Sl Fx].
    destruct (Z.leb_spec (seconds (ApplicationRow.submitted_date x))
                         (seconds (ApplicationRow.submitted_date r))) as [Hle|Hgt].
    + constructor; [constructor; assumption|].
      constructor; [exact Hle|].
      rewrite Forall_forall in *. intros y I. specialize (Fx y I). cbn in Fx. lia.
    + constructor; [exact (IH Sl)|].
      rewrite Forall_forall in *. intros y I.
      apply (Permutation_in _ (Permutation_sym (insert_by_submitted_date_perm r l))) in I.
      destruct I as [<-|I]; [lia | exact (Fx y I)].
Qed.

Lemma select_applications_newest_first_sorted db :
  rows_newest_first (select_applications_newest_first db).
Proof.
  unfold select_applications_newest_first.
  induction (applications db) as [|r l IH]; cbn.
  - constructor.
  - apply insert_by_submitted_date_sorted. exact IH.
Qed.

Lemma newest_first_map rows :
  rows_newest_first rows -> newest_first (map mapRowToApplication rows).
Proof.
  unfold rows_newest_first, newest_first.
  induction 1 as [|r l S IH F]; cbn; constructor; [exact IH|].
  rewrite Forall_forall in *. intros a I.
  apply in_map_iff in I as (y & <- & I). specialize (F y I).
  cbn. unfold from_datetime. lia.
Qed.

(** X8.  On a store with a connection, [getAllApplications] returns every
    stored application exactly once (a permutation of the table), none before
    a newer one by [submittedDate]; whatever [getApplication] finds is in the
    listing. *)
Theorem getAllApplications_lists_every_application_newest_first :
  forall this db,
    connection this = Some db ->
    exists apps,
      getAllApplications this = Returned apps this /\
      Permutation (map mapRowToApplication (applications db)) apps /\
      newest_first apps /\
      (forall id app,
         getApplication id this = Returned (Some app) this -> In app apps).
Proof.
  intros this db Hc. apply storage_eta in Hc as ->.
  exists (map mapRowToApplication (select_applications_newest_first db)).
  split; [reflexivity|].
  split; [apply Permutation_map, select_applications_newest_first_perm|].
  split; [apply newest_first_map, select_applications_newest_first_sorted|].
  intros id app H. rewrite getApplication_on in H.
  destruct (SQL.select_applications_by_id id db) as [|row rest] eqn:S; [discriminate|].
  cbn in H. injection H as <-. apply in_map.
  apply (Permutation_in _ (select_applications_newest_first_perm db)).
  assert (I : In row (SQL.select_applications_by_id id db))
    by (rewrite S; left; reflexivity).
  apply filter_In in I as [I _]. exact I.
Qed.

Lemma getAllApplications_lists_every_application_newest_first_witness :
  map ApplicationRow.id (applications busyDatabase) = ["a-1"; "a-2"; "a-3"] /\
  exists apps,
    getAllApplications busyStore = Returned apps busyStore /\
    Permutation (map mapRowToApplication (applications busyDatabase)) apps /\
    newest_first apps /\
    map Application.id apps = ["a-2"; "a-3"; "a-1"].
Proof.
  split; [reflexivity|].
  destruct (getAllApplications_lists_every_application_newest_first
              busyStore busyDatabase eq_refl) as (apps & H & P & N & _).
  exists apps. split; [exact H|]. split; [exact P|]. split; [exact N|].
  vm_compute in H. injection H as <-. reflexivity.
Defined.

(** ** What the two updating methods touch *)

Lemma updateApplicationStatus_inv now id status reviewedBy adminNotes reason this r this' :
  updateApplicationStatus now id status reviewedBy adminNotes reason this
    = Returned r this' ->
  (r = None /\ this' = this /\ getApplication id this = Returned None this) \/
  (exists app,
     getApplication id this = Returned (Some app) this /\
     r = Some (updatedApplication now status reviewedBy adminNotes reason app) /\
     getApplication id this'
     = Returned
         (Some (asStored
                  (updatedApplication now status reviewedBy adminNotes reason app)))
         this').
Proof.
  intros H. destruct this as [[db|]]; [|discriminate H].
  destruct (hd_error (SQL.select_applications_by_id id db)) as [row|] eqn:S.
  - right. exists (mapRowToApplication row).
    assert (G : getApplication id (mkStorage (Some db))
                = Returned (Some (mapRowToApplication row)) (mkStorage (Some db)))
      by (rewrite getApplication_on, S; reflexivity).
    destruct (updateApplicationStatus_present _ _ _ now status reviewedBy
                adminNotes reason G) as (this1 & Hu & Hg).
    rewrite Hu in H. injection H as <- <-. auto.
  - left. rewrite updateApplicationStatus_on, S in H. injection H as <- <-.
    rewrite getApplication_on, S. auto.
Qed.

Lemma attachDocuments_inv now id documents this r this' :
  attachDocuments now id documents this = Returned r this' ->
  (r = None /\ this' = this /\ getApplication id this = Returned None this) \/
  (exists app,
     getApplication id this = Returned (Some app) this /\
     r = Some (attachedApplication now documents app) /\
     getApplication id this'
     = Returned (Some (asStored (attachedApplication now documents app))) this').
Proof.
  intros H. destruct this as [[db|]]; [|discriminate H].
  destruct (hd_error (SQL.select_applications_by_id id db)) as [row|] eqn:S.
  - right. exists (mapRowToApplication row).
    assert (G : getApplication id (mkStorage (Some db))
                = Returned (Some (mapRowToApplication row)) (mkStorage (Some db)))
      by (rewrite getApplication_on, S; reflexivity).
    destruct (attachDocuments_present _ _ _ now documents G) as (this1 & Ha & Hg).
    rewrite Ha in H. injection H as <- <-. auto.
  - left. rewrite attachDocuments_on, S in H. injection H as <- <-.
    rewrite getApplication_on, S. auto.
Qed.

Lemma same_identity_refl a : same_identity a a.
Proof. repeat split. Qed.

Lemma same_identity_trans a b c :
  same_identity a b -> same_identity b c -> same_identity a c.
Proof.
  unfold same_identity.
  intros (A1 & A2 & A3 & A4 & A5 & A6 & A7 & A8 & A9 & A10)
         (B1 & B2 & B3 & B4 & B5 & B6 & B7 & B8 & B9 & B10).
  repeat split; congruence.
Qed.

Lemma select_by_id_has_id id db row :
  In row (SQL.select_applications_by_id id db) -> ApplicationRow.id row = id.
Proof. intros I. apply filter_In in I as [_ E]. apply String.eqb_eq. exact E. Qed.

Lemma getApplication_id id this app this' :
  getApplication id this = Returned (Some app) this' -> Application.id app = id.
Proof.
  intros H. apply getApplication_inv in H as (db & -> & _ & E).
  destruct (SQL.select_applications_by_id id db) as [|row rest] eqn:S; [discriminate|].
  cbn in E. injection E as ->. cbn.
  apply (select_by_id_has_id id db). rewrite S. left. reflexivity.
Qed.



(** X11.  A record returned by [attachDocuments] keeps id, reference number,
    submission date, applicant fields, reason, completion date, notes and
    reviewer; with an empty list of documents it keeps [documents] too, and
    still forces the status to [under_review] and stamps [reviewDate]. *)
Theorem attachDocuments_touches_document_fields_only :
  forall this now id documents app' this',
    attachDocuments now id documents this = Returned (Some app') this' ->
    exists app,
      getApplication id this = Returned (Some app) this /\
      same_identity app app' /\
      Application.reason app' = Application.reason app /\
      Application.completedDate app' = Application.completedDate app /\
      Application.adminNotes app' = Application.adminNotes app /\
      Application.reviewedBy app' = Application.reviewedBy app /\
      (documents = [] ->
       Application.documents app' = Application.documents app /\
       Application.status app' = under_review /\
       Application.reviewDate app' = Some now).
Proof.
  intros this now id docs app' this' H.
  apply attachDocuments_inv in H as [(E & _)|(app & G & E & G')]; [discriminate|].
  injection E as ->. exists app.
  split; [exact G|]. split; [repeat split|].
  repeat split. subst docs. cbn. unfold or_val; cbn. apply app_nil_r.
Qed.

Lemma attachDocuments_touches_document_fields_only_witness :
  exists app' this',
    attachDocuments 7000 "a-1" [] decidedStore = Returned (Some app') this' /\
    Application.status app' = under_review /\
    Application.reviewDate app' = Some 7000.
Proof.
  do 2 eexists. split; [vm_compute; reflexivity|].
  destruct (attachDocuments_touches_document_fields_only decidedStore
              7000 "a-1" [] _ _ eq_refl)
    as (app & _ & _ & _ & _ & _ & _ & E).
  exact (proj2 (E eq_refl)).
Defined.

(** X9.  [updateApplicationStatus] and [attachDocuments] on one id leave
    what [getApplication] returns for every other id unchanged. *)
Theorem updates_leave_other_applications_alone :
  forall this id other r,
    id <> other ->
    getApplication other this = Returned r this ->
    (forall now status reviewedBy adminNotes reason r' this',
       updateApplicationStatus now id status reviewedBy adminNotes reason this
         = Returned r' this' ->
       getApplication other this' = Returned r this') /\
    (forall now documents r' this',
       attachDocuments now id documents this = Returned r' this' ->
       getApplication other this' = Returned r this').
Proof.
  intros this id other r N G.
  apply getApplication_inv in G as (db & -> & _ & ->).
  assert (Neq : String.eqb other id = false)
    by (apply String.eqb_neq; congruence).
  split.
  - intros now st rb an rs r' this' H. rewrite updateApplicationStatus_on in H.
    destruct (hd_error (SQL.select_applications_by_id id db)) as [row|];
      inversion H; subst; rewrite !getApplication_on; [|reflexivity].
    unfold db_after_update. rewrite select_after_update_status, Neq. reflexivity.
  - intros now docs r' this' H. rewrite attachDocuments_on in H.
    destruct (hd_error (SQL.select_applications_by_id id db)) as [row|];
      inversion H; subst; rewrite !getApplication_on; [|reflexivity].
    unfold db_after_attach. cbv zeta.
    rewrite select_after_update_documents, Neq. reflexivity.
Qed.

Lemma updates_leave_other_applications_alone_witness :
  exists app' this',
    updateApplicationStatus 7000 "a-2" approved (Some "clerk") None None busyStore
    = Returned (Some app') this' /\
    Application.status app' = approved /\
    getApplication "a-1" this'
    = Returned (option_map mapRowToApplication (hd_error (applications busyDatabase)))
               this'.
Proof.
  do 2 eexists. split; [vm_compute; reflexivity|]. split; [reflexivity|].
  refine (proj1 (updates_leave_other_applications_alone busyStore "a-2" "a-1" _ _ _)
            7000 approved (Some "clerk") None None _ _ _).
  - discriminate.
  - reflexivity.
  - vm_compute. reflexivity.
Defined.

(** ** Sequences of calls *)

Lemma runCall_tables c this db this' :
  connection this = Some db ->
  runCall c this = Returned tt this' ->
  exists db',
    this' = mkStorage (Some db') /\
    match c with
    | CallCreateApplication uuid rnd now input =>
        applications db'
        = (applications db
             ++ [insertedRow (createdApplication uuid rnd now input)])%list /\
        admins db' = admins db
    | CallUpdateApplicationStatus _ _ _ _ _ _ | CallAttachDocuments _ _ _ =>
        map ApplicationRow.id (applications db')
        = map ApplicationRow.id (applications db) /\
        map ApplicationRow.reference_number (applications db')
        = map ApplicationRow.reference_number (applications db) /\
        map ApplicationRow.submitted_date (applications db')
        = map ApplicationRow.submitted_date (applications db) /\
        admins db' = admins db
    | CallCreateAdmin _ _ _ | CallInitializeAgain _ _ =>
        applications db' = applications db /\
        exists added, admins db' = (admins db ++ added)%list /\
                      (List.length added <= 1)%nat
    end.
Proof.
  intros Hc H. apply storage_eta in Hc as ->.
  destruct c as [uuid rnd now input|now id st rb an rs|now id docs
                |uuid now input|uuid now]; cbn [runCall] in H; unfold bind in H.
  - rewrite createApplication_on in H.
    destruct (SQL.insert_application _ db) as [db'|] eqn:E; [|discriminate].
    cbn in H. injection H as <-.
    apply insert_application_ok in E as (-> & _).
    eexists. split; [reflexivity|]. split; reflexivity.
  - rewrite updateApplicationStatus_on in H.
    destruct (hd_error _) as [row|]; cbn in H; injection H as <-;
      eexists; (split; [reflexivity|]); [|repeat split].
    unfold db_after_update, SQL.update_status. cbn [applications admins].
    rewrite !map_map.
    repeat split; apply map_ext; intros r; destruct (String.eqb _ _); reflexivity.
  - rewrite attachDocuments_on in H.
    destruct (hd_error _) as [row|]; cbn in H; injection H as <-;
      eexists; (split; [reflexivity|]); [|repeat split].
    unfold db_after_attach, SQL.update_documents. cbn [applications admins].
    rewrite !map_map.
    repeat split; apply map_ext; intros r; destruct (String.eqb _ _); reflexivity.
  - rewrite createAdmin_on in H.
    destruct (SQL.insert_admin _ db) as [db'|] eqn:E; [|discriminate].
    cbn in H. injection H as <-.
    apply insert_admin_ok in E as (-> & _).
    eexists. split; [reflexivity|]. split; [reflexivity|].
    eexists. split; [reflexivity | cbn; lia].
  - change (construct uuid now db = Returned tt this') in H.
    rewrite construct_on in H.
    destruct (SQL.select_admins_by_username "admin" db).
    + destruct (SQL.insert_admin _ db) as [db'|] eqn:E; [|discriminate].
      injection H as <-. apply insert_admin_ok in E as (-> & _).
      eexists. split; [reflexivity|]. split; [reflexivity|].
      eexists. split; [reflexivity | cbn; lia].
    + injection H as <-. exists db. split; [reflexivity|]. split; [reflexivity|].
      exists []. split; [symmetry; apply app_nil_r | cbn; lia].
Qed.

(** X14.  A writing call that returns deletes no row: the application ids
    after it are those before, followed by what it created, and the admins
    are those before, followed by what it added.  The application methods
    leave the admins table as it was; [createAdmin] and a new initialization
    leave the applications table as it was. *)
Theorem calls_never_delete_rows :
  forall c this db this',
    connection this = Some db ->
    runCall c this = Returned tt this' ->
    exists db',
      connection this' = Some db' /\
      (exists created,
         map ApplicationRow.id (applications db')
         = (map ApplicationRow.id (applications db) ++ created)%list) /\
      (exists added, admins db' = (admins db ++ added)%list) /\
      match c with
      | CallCreateApplication _ _ _ _ | CallUpdateApplicationStatus _ _ _ _ _ _
      | CallAttachDocuments _ _ _ => admins db' = admins db
      | CallCreateAdmin _ _ _ | CallInitializeAgain _ _ =>
          applications db' = applications db
      end.
Proof.
  intros c this db this' Hc H.
  destruct (runCall_tables c this db this' Hc H) as (db' & -> & T).
  exists db'. split; [reflexivity|].
  destruct c; cbn in T.
  - destruct T as (Ea & Ed). rewrite Ea, Ed, map_app.
    split; [eexists; reflexivity|].
    split; [exists []; symmetry; apply app_nil_r | reflexivity].
  - destruct T as (Ei & _ & _ & Ed). rewrite Ei, Ed.
    split; [exists []; symmetry; apply app_nil_r|].
    split; [exists []; symmetry; apply app_nil_r | reflexivity].
  - destruct T as (Ei & _ & _ & Ed). rewrite Ei, Ed.
    split; [exists []; symmetry; apply app_nil_r|].
    split; [exists []; symmetry; apply app_nil_r | reflexivity].
  - destruct T as (Ea & added & Ed & _). rewrite Ea, Ed.
    split; [exists []; symmetry; apply app_nil_r|].
    split; [eexists; reflexivity | reflexivity].
  - destruct T as (Ea & added & Ed & _). rewrite Ea, Ed.
    split; [exists []; symmetry; apply app_nil_r|].
    split; [eexists; reflexivity | reflexivity].
Qed.

Lemma calls_never_delete_rows_witness :
  exists db',
    connection decidedStore = Some db' /\
    admins db' = admins sampleDatabase.
Proof.
  destruct (calls_never_delete_rows
              (CallUpdateApplicationStatus 2000 "a-1" approved (Some "clerk") None None)
              sampleStore sampleDatabase decidedStore eq_refl eq_refl)
    as (db' & Hc & _ & _ & Ha).
  exists db'. split; [exact Hc | exact Ha].
Defined.

Lemma getApplication_same_applications id db db' r :
  applications db' = applications db ->
  getApplication id (mkStorage (Some db)) = Returned r (mkStorage (Some db)) ->
  getApplication id (mkStorage (Some db')) = Returned r (mkStorage (Some db')).
Proof.
  intros E. rewrite !getApplication_on. unfold SQL.select_applications_by_id.
  rewrite E. intros H. injection H as <-. reflexivity.
Qed.

Lemma stored_dates a :
  asStored a = a ->
  DATETIME (Application.submittedDate a) = Application.submittedDate a /\
  option_map DATETIME (Application.reviewDate a) = Application.reviewDate a /\
  option_map DATETIME (Application.completedDate a) = Application.completedDate a.
Proof.
  intros E. repeat split.
  - exact (f_equal Application.submittedDate E).
  - exact (f_equal Application.reviewDate E).
  - exact (f_equal Application.completedDate E).
Qed.

Lemma runCall_keeps_application c this id app this' :
  getApplication id this = Returned (Some app) this ->
  runCall c this = Returned tt this' ->
  exists app',
    getApplication id this' = Returned (Some app') this' /\
    same_identity app app' /\
    (~ supplies_reason id c -> Application.reason app' = Application.reason app) /\
    (~ decides id c ->
     Application.completedDate app' = Application.completedDate app).
Proof.
  intros G H.
  destruct (stored_dates app (getApplication_asStored _ _ _ _ G)) as (Ds & _ & Dc).
  assert (Same : forall this1,
            getApplication id this1 = Returned (Some app) this1 ->
            exists app',
              getApplication id this1 = Returned (Some app') this1 /\
              same_identity app app' /\
              (~ supplies_reason id c ->
               Application.reason app' = Application.reason app) /\
              (~ decides id c ->
               Application.completedDate app' = Application.completedDate app)).
  { intros this1 G1. exists app. split; [exact G1|].
    split; [apply same_identity_refl|]. split; reflexivity. }
  destruct c as [uuid rnd now input|now id' st rb an rs|now id' docs
                |uuid now input|uuid now]; cbn [runCall] in H; unfold bind in H.
  - destruct (createApplication uuid rnd now input this) as [a this1|] eqn:C;
      [|discriminate].
    cbn in H. injection H as <-. apply Same.
    apply createApplication_inv in C as (db & -> & _ & -> & _).
    rewrite getApplication_on in G |- *.
    unfold SQL.select_applications_by_id in *. cbn [applications].
    rewrite filter_app.
    destruct (filter _ (applications db)) as [|row rest]; [discriminate|].
    cbn in G |- *. injection G as <-. reflexivity.
  - destruct (updateApplicationStatus now id' st rb an rs this) as [r this1|] eqn:U;
      [|discriminate].
    cbn in H. injection H as <-.
    destruct (String.eqb_spec id' id) as [->|N].
    + apply updateApplicationStatus_inv in U as [(_ & _ & G0)|(app0 & G0 & -> & G1)];
        rewrite G in G0; [discriminate|]. injection G0 as <-.
      eexists. split; [exact G1|].
      split; [repeat split; cbn; symmetry; exact Ds|]. split.
      * intros Nr. cbn. destruct rs as [[|c s]|]; try reflexivity.
        exfalso. apply Nr. reflexivity.
      * intros Nd. cbn. destruct (_ || _) eqn:D.
        -- exfalso. apply Nd. split; [reflexivity | apply decided_iff; exact D].
        -- exact Dc.
    + apply Same.
      destruct (updates_leave_other_applications_alone this id' id _ N G) as [F _].
      exact (F _ _ _ _ _ _ _ U).
  - destruct (attachDocuments now id' docs this) as [r this1|] eqn:A; [|discriminate].
    cbn in H. injection H as <-.
    destruct (String.eqb_spec id' id) as [->|N].
    + apply attachDocuments_inv in A as [(_ & _ & G0)|(app0 & G0 & -> & G1)];
        rewrite G in G0; [discriminate|]. injection G0 as <-.
      eexists. split; [exact G1|].
      split; [repeat split; cbn; symmetry; exact Ds|].
      split; [reflexivity | intros _; exact Dc].
    + apply Same.
      destruct (updates_leave_other_applications_alone this id' id _ N G) as [_ F].
      exact (F _ _ _ _ A).
  - destruct (createAdmin uuid now input this) as [a this1|] eqn:C; [|discriminate].
    cbn in H. injection H as <-. apply Same.
    apply createAdmin_inv in C as (db & -> & _ & -> & _).
    apply (getApplication_same_applications id db); [reflexivity | exact G].
  - pose proof G as G0. apply getApplication_inv in G0 as (db & -> & _ & _).
    change (construct uuid now db = Returned tt this') in H.
    rewrite construct_on in H. apply Same.
    destruct (SQL.select_admins_by_username "admin" db).
    + destruct (SQL.insert_admin _ db) as [db'|] eqn:E; [|discriminate].
      injection H as <-. apply insert_admin_ok in E as (-> & _).
      apply (getApplication_same_applications id db); [reflexivity | exact G].
    + injection H as <-. exact G.
Qed.

Lemma runCalls_keep_application cs :
  forall this id app this',
    getApplication id this = Returned (Some app) this ->
    runCalls cs this = Returned tt this' ->
    exists app',
      getApplication id this' = Returned (Some app') this' /\
      same_identity app app' /\
      (Forall (fun c => ~ supplies_reason id c) cs ->
       Application.reason app' = Application.reason app) /\
      (Forall (fun c => ~ decides id c) cs ->
       Application.completedDate app' = Application.completedDate app).
Proof.
  induction cs as [|c cs IH]; intros this id app this' G H.
  - cbn in H. injection H as <-. exists app. split; [exact G|].
    split; [apply same_identity_refl|]. split; reflexivity.
  - cbn [runCalls] in H. unfold bind in H.
    destruct (runCall c this) as [[] this1|] eqn:C; [|discriminate].
    destruct (runCall_keeps_application c this id app this1 G C)
      as (app1 & G1 & S1 & R1 & D1).
    destruct (IH this1 id app1 this' G1 H) as (app' & G' & S' & R' & D').
    exists app'. split; [exact G'|].
    split; [exact (same_identity_trans _ _ _ S1 S')|]. split.
    + intros F. inversion F as [|c0 cs0 Fc Fcs]; subst.
      rewrite (R' Fcs). exact (R1 Fc).
    + intros F. inversion F as [|c0 cs0 Fc Fcs]; subst.
      rewrite (D' Fcs). exact (D1 Fc).
Qed.



(** ** Completion dates over histories *)

Lemma runStatusUpdates_keep_completedDate us :
  forall this id app this',
  getApplication id this = Returned (Some app) this ->
  Forall (fun u => su_id u = id -> ~ decided (su_status u)) us ->
  runStatusUpdates us this = Returned tt this' ->
  exists app', getApplication id this' = Returned (Some app') this' /\
               Application.completedDate app' = Application.completedDate app.
Proof.
  induction us as [|u us IH]; intros this id app this' H Hall Hr.
  - cbn in Hr. inversion Hr; subst. eauto.
  - cbn [runStatusUpdates] in Hr. unfold bind in Hr.
    destruct (runStatusUpdate u this) as [r this1|e this1] eqn:Hu; [|discriminate].
    inversion Hall as [|u0 us0 Hhead Htail]; subst.
    assert (C : runCall (CallUpdateApplicationStatus (su_now u) (su_id u)
                           (su_status u) (su_reviewedBy u) (su_adminNotes u)
                           (su_reason u)) this = Returned tt this1).
    { cbn [runCall]. unfold bind. unfold runStatusUpdate in Hu. rewrite Hu.
      reflexivity. }
    destruct (runCall_keeps_application _ _ _ _ _ H C) as (app1 & H1 & _ & _ & Hc1).
    destruct (IH _ _ _ _ H1 Htail Hr) as (app' & H' & Hc').
    exists app'. split; [assumption|]. rewrite Hc'. apply Hc1.
    cbn. intros [E D]. exact (Hhead E D).
Qed.



(** ** Keys in a reachable store *)

(** X13.  In every reachable store application ids, admin ids and admin
    usernames are pairwise distinct, so a lookup by id, by reference number
    or by username selects at most one row. *)
Theorem reachable_store_keeps_keys_unique :
  forall this db,
    reachable this -> connection this = Some db ->
    NoDup (map ApplicationRow.id (applications db)) /\
    NoDup (map AdminRow.id (admins db)) /\
    NoDup (map AdminRow.username (admins db)) /\
    (forall id, (List.length (SQL.select_applications_by_id id db) <= 1)%nat) /\
    (forall ref,
       (List.length (SQL.select_applications_by_reference ref db) <= 1)%nat) /\
    (forall username, (count_admins username db <= 1)%nat).
Proof.
  intros this db R Hc.
  destruct (reachable_invariant this R) as (db0 & -> & I).
  cbn in Hc. injection Hc as <-.
  destruct I as ((I1 & I2 & I3 & I4) & _ & _).
  repeat split; try assumption; intros k.
  - exact (filter_unique_key ApplicationRow.id k _ I1).
  - exact (filter_unique_key ApplicationRow.reference_number k _ I2).
  - exact (filter_unique_key AdminRow.username k _ I4).
Qed.

Lemma reachable_store_keeps_keys_unique_witness :
  map ApplicationRow.id (applications busyDatabase) = ["a-1"; "a-2"; "a-3"] /\
  map AdminRow.username (admins busyDatabase) = ["admin"; "clerk"] /\
  NoDup (map ApplicationRow.id (applications busyDatabase)) /\
  NoDup (map AdminRow.username (admins busyDatabase)) /\
  (List.length (SQL.select_applications_by_id "a-2" busyDatabase) <= 1)%nat.
Proof.
  destruct (reachable_store_keeps_keys_unique busyStore busyDatabase
              busyStore_reachable eq_refl) as (N1 & _ & N3 & L & _).
  split; [reflexivity|]. split; [reflexivity|].
  split; [exact N1|]. split; [exact N3 | exact (L "a-2")].
Defined.

Lemma filter_key_single {A} (key : A -> string) (l : list A) (x : A) :
  NoDup (map key l) -> In x l ->
  filter (fun r => String.eqb (key r) (key x)) l = [x].
Proof.
  induction l as [|y l IH]; cbn; intros N I; [contradiction|].
  inversion N as [|k ks Hy Hl]; subst.
  destruct I as [->|I].
  - rewrite String.eqb_refl. f_equal. apply filter_key_absent. exact Hy.
  - destruct (String.eqb_spec (key y) (key x)) as [E|_].
    + exfalso. apply Hy. rewrite E. apply in_map. exact I.
    + exact (IH Hl I).
Qed.

(** X20.  In every reachable store the two lookups agree: an application
    found under an id is found under its reference number, and one found
    under a reference number is found under its id. *)
Theorem lookups_by_id_and_by_reference_agree :
  forall this, reachable this ->
    (forall id app,
       getApplication id this = Returned (Some app) this ->
       getApplicationByReference (Application.referenceNumber app) this
       = Returned (Some app) this) /\
    (forall ref app,
       getApplicationByReference ref this = Returned (Some app) this ->
       getApplication (Application.id app) this = Returned (Some app) this).
Proof.
  intros this R.
  destruct (reachable_invariant this R) as (db & -> & ((I1 & I2 & _) & _ & _)).
  split.
  - intros id app G. rewrite getApplication_on in G.
    destruct (SQL.select_applications_by_id id db) as [|row rest] eqn:S; [discriminate|].
    cbn in G. injection G as <-.
    assert (I : In row (applications db)).
    { assert (I : In row (SQL.select_applications_by_id id db))
        by (rewrite S; left; reflexivity).
      apply filter_In in I as [I _]. exact I. }
    unfold getApplicationByReference, bind, requireConnection, query, ret.
    cbn [connection]. unfold SQL.select_applications_by_reference.
    change (Application.referenceNumber (mapRowToApplication row))
      with (ApplicationRow.reference_number row).
    rewrite (filter_key_single ApplicationRow.reference_number _ row I2 I).
    reflexivity.
  - intros ref app G.
    unfold getApplicationByReference, bind, requireConnection, query, ret in G.
    cbn [connection] in G.
    destruct (SQL.select_applications_by_reference ref db) as [|row rest] eqn:S;
      [discriminate|].
    injection G as <-.
    assert (I : In row (applications db)).
    { assert (I : In row (SQL.select_applications_by_reference ref db))
        by (rewrite S; left; reflexivity).
      apply filter_In in I as [I _]. exact I. }
    rewrite getApplication_on. unfold SQL.select_applications_by_id.
    change (Application.id (mapRowToApplication row)) with (ApplicationRow.id row).
    rewrite (filter_key_single ApplicationRow.id _ row I1 I). reflexivity.
Qed.

Lemma lookups_by_id_and_by_reference_agree_witness :
  getApplicationByReference "RCC-2025-100000" decidedStore
  = Returned (option_map mapRowToApplication (hd_error (applications decidedDatabase)))
             decidedStore.
Proof.
  exact (proj1 (lookups_by_id_and_by_reference_agree decidedStore
                  decidedStore_reachable) "a-1" _ eq_refl).
Defined.

(** ** Text fields and dates under updates *)

(** X15.  [updateApplicationStatus] never clears a text field: a non-empty
    [reviewedBy], [adminNotes] or [reason] is non-empty afterwards, and an
    empty string passed for one of them keeps the stored value. *)
Theorem updateApplicationStatus_never_clears :
  forall this now id status reviewedBy adminNotes reason app app' this',
    getApplication id this = Returned (Some app) this ->
    updateApplicationStatus now id status reviewedBy adminNotes reason this
      = Returned (Some app') this' ->
    (nonempty (Application.reviewedBy app) -> nonempty (Application.reviewedBy app')) /\
    (nonempty (Application.adminNotes app) -> nonempty (Application.adminNotes app')) /\
    (Application.reason app <> "" -> Application.reason app' <> "") /\
    (reviewedBy = Some "" ->
     Application.reviewedBy app' = Application.reviewedBy app) /\
    (adminNotes = Some "" ->
     Application.adminNotes app' = Application.adminNotes app) /\
    (reason = Some "" -> Application.reason app' = Application.reason app).
Proof.
  intros this now id st rb an rs app app' this' G H.
  apply updateApplicationStatus_inv in H as [(E & _)|(app0 & G0 & E & _)];
    [discriminate|].
  rewrite G in G0. injection G0 as <-. injection E as ->. cbn.
  split; [|split; [|split; [|split; [|split]]]].
  - intros N. destruct rb as [[|c s]|]; cbn; try exact N. exists c, s. reflexivity.
  - intros N. destruct an as [[|c s]|]; cbn; try exact N. exists c, s. reflexivity.
  - intros N. destruct rs as [[|c s]|]; cbn; try exact N. discriminate.
  - intros ->. reflexivity.
  - intros ->. reflexivity.
  - intros ->. reflexivity.
Qed.

Lemma updateApplicationStatus_never_clears_witness :
  exists app' this',
    updateApplicationStatus 7000 "a-1" rejected (Some "") None None decidedStore
    = Returned (Some app') this' /\
    nonempty (Application.reviewedBy app').
Proof.
  do 2 eexists. split; [vm_compute; reflexivity|].
  refine (proj1 (updateApplicationStatus_never_clears decidedStore 7000 "a-1"
                   rejected (Some "") None None _ _ _ eq_refl eq_refl) _).
  do 2 eexists. reflexivity.
Defined.



(** ** What creation copies *)

(** X19.  The record [createApplication] returns carries the generated id
    and reference number and the applicant fields of the input; an absent or
    empty email becomes null. *)
Theorem createApplication_copies_applicant_fields :
  forall this uuid rnd now input app this',
    createApplication uuid rnd now input this = Returned app this' ->
    Application.id app = uuid /\
    Application.referenceNumber app = makeReferenceNumber rnd /\
    Application.fullName app = InsertApplication.fullName input /\
    Application.idNumber app = InsertApplication.idNumber input /\
    Application.phoneNumber app = InsertApplication.phoneNumber input /\
    Application.propertyAddress app = InsertApplication.propertyAddress input /\
    Application.standNumber app = InsertApplication.standNumber input /\
    Application.propertyType app = InsertApplication.propertyType input /\
    Application.reason app = InsertApplication.reason input /\
    Application.email app
    = match InsertApplication.email input with
      | Some "" | None => None
      | Some address => Some address
      end.
Proof.
  intros this uuid rnd now input app this' H.
  apply createApplication_inv in H as (db & _ & -> & _).
  repeat split. cbn. destruct (InsertApplication.email input) as [[|c s]|]; reflexivity.
Qed.

Lemma createApplication_copies_applicant_fields_witness :
  exists app this',
    createApplication "a-2" 0 4000
      (InsertApplication.mk "John Moyo" "12-345678B12" "0712345678" (Some "")
         "3 Main Street" "88" "commercial" "transfer" None None)
      (mkStorage (Some emptyDatabase)) = Returned app this' /\
    Application.fullName app = "John Moyo" /\
    Application.email app = None.
Proof.
  do 2 eexists. split; [vm_compute; reflexivity|].
  destruct (createApplication_copies_applicant_fields
              (mkStorage (Some emptyDatabase)) "a-2" 0 4000
              (InsertApplication.mk "John Moyo" "12-345678B12" "0712345678" (Some "")
                 "3 Main Street" "88" "commercial" "transfer" None None)
              _ _ eq_refl)
    as (_ & _ & F & _ & _ & _ & _ & _ & _ & E).
  split; [exact F | exact E].
Defined.

(** ** Reference numbers and suffixes *)

Lemma digit_char_inj d1 d2 :
  0 <= d1 <= 9 -> 0 <= d2 <= 9 -> digit_char d1 = digit_char d2 -> d1 = d2.
Proof.
  intros H1 H2 E. apply (f_equal nat_of_ascii) in E. unfold digit_char in E.
  rewrite !nat_ascii_embedding in E by lia. lia.
Qed.

Lemma Number_toString_six_inj n m :
  100000 <= n <= 999999 -> 100000 <= m <= 999999 ->
  Number_toString n = Number_toString m -> n = m.
Proof.
  intros Hn Hm E.
  rewrite (Number_toString_six n Hn), (Number_toString_six m Hm) in E.
  injection E as E5 E4 E3 E2 E1 E0.
  apply (f_equal nat_of_ascii) in E0, E1, E2, E3, E4, E5.
  unfold digit_char in *.
  pose proof (Z.mod_pos_bound n 10 ltac:(lia)).
  pose proof (Z.mod_pos_bound m 10 ltac:(lia)).
  pose proof (Z.mod_pos_bound (n / 10) 10 ltac:(lia)).
  pose proof (Z.mod_pos_bound (m / 10) 10 ltac:(lia)).
  pose proof (Z.mod_pos_bound (n / 100) 10 ltac:(lia)).
  pose proof (Z.mod_pos_bound (m / 100) 10 ltac:(lia)).
  pose proof (Z.mod_pos_bound (n / 1000) 10 ltac:(lia)).
  pose proof (Z.mod_pos_bound (m / 1000) 10 ltac:(lia)).
  pose proof (Z.mod_pos_bound (n / 10000) 10 ltac:(lia)).
  pose proof (Z.mod_pos_bound (m / 10000) 10 ltac:(lia)).
  pose proof (Z.mod_pos_bound (n / 100000) 10 ltac:(lia)).
  pose proof (Z.mod_pos_bound (m / 100000) 10 ltac:(lia)).
  rewrite !nat_ascii_embedding in E0, E1, E2, E3, E4, E5 by lia.
  apply Nat.add_cancel_l, Z2Nat.inj in E0, E1, E2, E3, E4, E5; try lia.
  Z.div_mod_to_equations. lia.
Qed.

(** X17.  For two results of [Math.random()], the generated reference
    numbers are equal exactly when the six-digit suffixes are, and the suffix
    does not decrease when the random number grows. *)
Theorem referenceNumber_determined_by_suffix :
  forall r1 r2,
    Binary64.is_random r1 = true -> Binary64.is_random r2 = true ->
    (makeReferenceNumber r1 = makeReferenceNumber r2 <->
     referenceSuffix r1 = referenceSuffix r2) /\
    (r1 <= r2 -> referenceSuffix r1 <= referenceSuffix r2).
Proof.
  intros r1 r2 H1 H2. split; [split|].
  - unfold makeReferenceNumber. intros E. injection E as E.
    apply Number_toString_six_inj; [apply referenceSuffix_range; assumption ..|exact E].
  - unfold makeReferenceNumber. intros ->. reflexivity.
  - intros L. apply Binary64Facts.is_random_range in H1 as [H1 _].
    unfold referenceSuffix, Binary64.floor, Binary64.add, Binary64.mul_int.
    assert (Hone : 0 < Binary64.one) by (vm_compute; reflexivity).
    assert (Hc : 0 <= Binary64.of_int 100000) by (vm_compute; discriminate).
    assert (Hz : 0 <= Binary64.round53 (0 * 900000)) by (vm_compute; discriminate).
    assert (H0 : Binary64.round53 (0 * 900000) <= Binary64.round53 (r1 * 900000))
      by (apply Binary64Facts.round53_mono; lia).
    apply Z.div_le_mono; [assumption|].
    apply Binary64Facts.round53_mono. split; [lia|].
    apply Z.add_le_mono_r. apply Binary64Facts.round53_mono. lia.
Qed.

Lemma referenceNumber_determined_by_suffix_witness :
  referenceSuffix 0 <= referenceSuffix Binary64.max_random /\
  makeReferenceNumber 0 <> makeReferenceNumber Binary64.max_random.
Proof.
  destruct (referenceNumber_determined_by_suffix 0 Binary64.max_random)
    as [[I _] M].
  - vm_compute. reflexivity.
  - vm_compute. reflexivity.
  - split.
    + apply M. vm_compute. discriminate.
    + intros E. apply I in E. vm_compute in E. discriminate E.
Defined.

(** ** Creation and initialization beside existing rows *)

(** X21.  [createApplication], [createAdmin] and a new initialization leave
    every stored application exactly as it was; a [createApplication] that
    returns did not reuse the id of a stored application. *)
Theorem creation_leaves_existing_applications_alone :
  forall this id app,
    getApplication id this = Returned (Some app) this ->
    (forall uuid rnd now input created this',
       createApplication uuid rnd now input this = Returned created this' ->
       uuid <> id /\
       getApplication id this' = Returned (Some app) this') /\
    (forall uuid now input admin this',
       createAdmin uuid now input this = Returned admin this' ->
       getApplication id this' = Returned (Some app) this') /\
    (forall db uuid now this',
       connection this = Some db ->
       construct uuid now db = Returned tt this' ->
       getApplication id this' = Returned (Some app) this').
Proof.
  intros this id app G. split; [|split].
  - intros uuid rnd now input created this' C.
    apply createApplication_inv in C as (db & -> & _ & -> & Hid & _).
    pose proof G as G0. rewrite getApplication_on in G0.
    destruct (SQL.select_applications_by_id id db) as [|row rest] eqn:S; [discriminate|].
    cbn in G0. injection G0 as <-.
    assert (Erow : ApplicationRow.id row = id)
      by (apply (select_by_id_has_id id db); rewrite S; left; reflexivity).
    assert (Irow : In row (applications db)).
    { assert (I : In row (SQL.select_applications_by_id id db))
        by (rewrite S; left; reflexivity).
      apply filter_In in I as [I _]. exact I. }
    split.
    + intros ->. apply Hid. rewrite <- Erow. apply in_map. exact Irow.
    + rewrite getApplication_on. unfold SQL.select_applications_by_id in *.
      cbn [applications]. rewrite filter_app, S. reflexivity.
  - intros uuid now input admin this' C.
    apply createAdmin_inv in C as (db & -> & _ & -> & _).
    apply (getApplication_same_applications id db); [reflexivity | exact G].
  - intros db uuid now this' Hc C. apply storage_eta in Hc as ->.
    rewrite construct_on in C.
    destruct (SQL.select_admins_by_username "admin" db).
    + destruct (SQL.insert_admin _ db) as [db'|] eqn:E; [|discriminate].
      injection C as <-. apply insert_admin_ok in E as (-> & _).
      apply (getApplication_same_applications id db); [reflexivity | exact G].
    + injection C as <-. exact G.
Qed.

Lemma creation_leaves_existing_applications_alone_witness :
  exists created this',
    createApplication "a-2" Binary64.max_random 4000 sampleInput sampleStore
    = Returned created this' /\
    getApplication "a-1" this'
    = Returned (option_map mapRowToApplication (hd_error (applications sampleDatabase)))
               this'.
Proof.
  do 2 eexists. split; [vm_compute; reflexivity|].
  refine (proj2 (proj1 (creation_leaves_existing_applications_alone
                          sampleStore "a-1" _ eq_refl)
                   "a-2" Binary64.max_random 4000 sampleInput _ _ _)).
  vm_compute. reflexivity.
Defined.

(** X22.  An initialization that reaches the database throws only when no
    admin named [admin] exists and the generated id is already an admin's id,
    and then writes nothing; when the generated id is new it returns and
    leaves the applications table as it was. *)
Theorem initialization_fails_only_on_id_collision :
  forall uuid now db,
    (forall e this,
       construct uuid now db = Thrown e this ->
       e = DuplicateEntry "PRIMARY" /\
       this = mkStorage (Some db) /\
       SQL.select_admins_by_username "admin" db = [] /\
       In uuid (map AdminRow.id (admins db))) /\
    (~ In uuid (map AdminRow.id (admins db)) ->
     exists db',
       construct uuid now db = Returned tt (mkStorage (Some db')) /\
       applications db' = applications db).
Proof.
  intros uuid now db. rewrite construct_on. unfold SQL.insert_admin.
  cbn [defaultAdminRow AdminRow.id AdminRow.username].
  destruct (SQL.select_admins_by_username "admin" db) as [|r rs] eqn:S.
  - destruct (existsb _ _) eqn:E1.
    + apply existsb_eqb_true in E1. split.
      * intros e this H. injection H as <- <-. auto.
      * contradiction.
    + apply existsb_eqb_false in E1.
      destruct (existsb _ (admins db)) eqn:E2 in |- *.
      * exfalso. apply existsb_eqb_true in E2.
        assert (F : SQL.select_admins_by_username "admin" db = [])
          by exact S.
        apply in_map_iff in E2 as (x & Ex & Ix).
        assert (I : In x (SQL.select_admins_by_username "admin" db)).
        { apply filter_In. split; [exact Ix | apply String.eqb_eq; exact Ex]. }
        rewrite F in I. exact I.
      * split; [discriminate|]. intros _. eexists. split; reflexivity.
  - split; [discriminate|]. intros _. exists db. split; reflexivity.
Qed.

Lemma initialization_fails_only_on_id_collision_witness :
  exists db',
    construct "u-4" 50 sampleDatabase = Returned tt (mkStorage (Some db')) /\
    applications db' = applications sampleDatabase.
Proof.
  apply (proj2 (initialization_fails_only_on_id_collision "u-4" 50 sampleDatabase)).
  cbn. intros [E|[]]. discriminate E.
Defined.
